(** * An HTTP adapter for a GraphQL schema: request-options resolution,
      execution and response rendering (handler.go, graphiql.go).

    Go's [string] is modelled by [string] and [[]byte] by [list ascii];
    [url.Values] and [http.Header] are finite maps from keys to value
    lists.  The parts of [encoding/json] the handler relies on are modelled
    in [Module Json]. *)

From Stdlib Require Import Ascii String ZArith List Lia Bool DecimalFacts DecimalPos.
From stdpp Require Import base option list gmap strings.

Local Open Scope char_scope.
Local Open Scope string_scope.
Local Open Scope list_scope.

(** Go's [[]byte]. *)
Abbreviation bytes := (list ascii).

(** [[]byte(s)] and [string(b)]. *)
Abbreviation bytes_of := list_ascii_of_string.
Abbreviation string_of := string_of_list_ascii.

(** * encoding/json *)

Module Json.

(** The value a JSON text denotes.  A number is kept as its literal, an
    object as its members in source order. *)
#[local] Unset Elimination Schemes.
Inductive json : Type :=
| JNull
| JBool (b : bool)
| JNum (lit : bytes)
| JStr (s : string)
| JArr (elems : list json)
| JObj (members : list (string * json)).
#[local] Set Elimination Schemes.

(** ** Scanner *)

Definition dquote : ascii := "034".

(** [isSpace] of the scanner. *)
Definition is_space (c : ascii) : bool :=
  Ascii.eqb c " " || Ascii.eqb c "009" || Ascii.eqb c "010" || Ascii.eqb c "013".

Fixpoint skip_space (s : bytes) : bytes :=
  match s with
  | c :: r => if is_space c then skip_space r else s
  | [] => []
  end.

Definition is_digit (c : ascii) : bool :=
  (48 <=? N_of_ascii c)%N && (N_of_ascii c <=? 57)%N.

Fixpoint span_digits (s : bytes) : bytes * bytes :=
  match s with
  | c :: r =>
      if is_digit c then let '(ds, r') := span_digits r in (c :: ds, r')
      else ([], s)
  | [] => ([], [])
  end.

(** The integer part: [0], or a non-zero digit followed by digits. *)
Definition scan_int (s : bytes) : option (bytes * bytes) :=
  match s with
  | c :: r =>
      if Ascii.eqb c "0" then Some ([c], r)
      else if is_digit c then let '(ds, r') := span_digits r in Some (c :: ds, r')
      else None
  | [] => None
  end.

(** The optional fraction: [.] and at least one digit. *)
Definition scan_frac (s : bytes) : option (bytes * bytes) :=
  match s with
  | c :: r =>
      if Ascii.eqb c "." then
        match span_digits r with
        | ([], _) => None
        | (ds, r') => Some (c :: ds, r')
        end
      else Some ([], s)
  | [] => Some ([], [])
  end.

(** The optional exponent: [e] or [E], an optional sign, at least one digit. *)
Definition scan_exp (s : bytes) : option (bytes * bytes) :=
  match s with
  | c :: r =>
      if Ascii.eqb c "e" || Ascii.eqb c "E" then
        let '(sign, r1) :=
          match r with
          | c1 :: r1 =>
              if Ascii.eqb c1 "+" || Ascii.eqb c1 "-" then ([c1], r1) else ([], r)
          | [] => ([], r)
          end in
        match span_digits r1 with
        | ([], _) => None
        | (ds, r') => Some (c :: sign ++ ds, r')
        end
      else Some ([], s)
  | [] => Some ([], [])
  end.

(** A number literal and what follows it. *)
Definition scan_number (s : bytes) : option (bytes * bytes) :=
  let '(neg, s1) :=
    match s with
    | c :: r => if Ascii.eqb c "-" then ([c], r) else ([], s)
    | [] => ([], s)
    end in
  '(i, s2) ← scan_int s1;
  '(f, s3) ← scan_frac s2;
  '(e, s4) ← scan_exp s3;
  Some (neg ++ i ++ f ++ e, s4).

(** A text that is one number literal. *)
Definition is_number (lit : bytes) : bool :=
  match scan_number lit with
  | Some (_, []) => true
  | _ => false
  end.

Definition hex_val (c : ascii) : option N :=
  let n := N_of_ascii c in
  if (48 <=? n)%N && (n <=? 57)%N then Some (n - 48)%N
  else if (97 <=? n)%N && (n <=? 102)%N then Some (n - 87)%N
  else if (65 <=? n)%N && (n <=? 70)%N then Some (n - 55)%N
  else None.

(** [getu4]: the code unit of four hexadecimal digits. *)
Definition getu4 (a b c d : ascii) : option N :=
  x ← hex_val a; y ← hex_val b; z ← hex_val c; w ← hex_val d;
  Some (x * 4096 + y * 256 + z * 16 + w)%N.

(** [utf8.EncodeRune]. *)
Definition encode_rune (r : N) : bytes :=
  if (r <? 128)%N then [ascii_of_N r]
  else if (r <? 2048)%N then
    [ascii_of_N (192 + r / 64); ascii_of_N (128 + r mod 64)]
  else if (r <? 65536)%N then
    [ascii_of_N (224 + r / 4096); ascii_of_N (128 + (r / 64) mod 64);
     ascii_of_N (128 + r mod 64)]
  else
    [ascii_of_N (240 + r / 262144); ascii_of_N (128 + (r / 4096) mod 64);
     ascii_of_N (128 + (r / 64) mod 64); ascii_of_N (128 + r mod 64)].

Definition is_surrogate (r : N) : bool := (55296 <=? r)%N && (r <? 57344)%N.

(** [utf16.DecodeRune]: a high and a low surrogate combine; anything else
    is the replacement character. *)
Definition decode_surrogates (r1 r2 : N) : option N :=
  if (55296 <=? r1)%N && (r1 <? 56320)%N && (56320 <=? r2)%N && (r2 <? 57344)%N
  then Some ((r1 - 55296) * 1024 + (r2 - 56320) + 65536)%N
  else None.

Definition replacement_char : N := 65533.

(** UTF-8.  [utf8_width s] is the number of bytes of the encoding of a
    rune that [s] starts with, for a first byte from 128 on, and 0 when
    [s] does not start with one: the ranges are those of [utf8.DecodeRune],
    which has no overlong forms, no surrogates and nothing above
    U+10FFFF. *)
Definition in_range (lo hi : N) (c : ascii) : bool :=
  (lo <=? N_of_ascii c)%N && (N_of_ascii c <=? hi)%N.

Definition is_cont (c : ascii) : bool := in_range 128 191 c.

Definition utf8_width (s : bytes) : nat :=
  match s with
  | [] => 0
  | c :: t =>
      let n := N_of_ascii c in
      if in_range 194 223 c then
        match t with
        | b1 :: _ => if is_cont b1 then 2 else 0
        | _ => 0
        end
      else if in_range 224 239 c then
        match t with
        | b1 :: b2 :: _ =>
            if in_range (if (n =? 224)%N then 160 else 128)
                        (if (n =? 237)%N then 159 else 191) b1 && is_cont b2
            then 3 else 0
        | _ => 0
        end
      else if in_range 240 244 c then
        match t with
        | b1 :: b2 :: b3 :: _ =>
            if in_range (if (n =? 240)%N then 144 else 128)
                        (if (n =? 244)%N then 143 else 191) b1
               && is_cont b2 && is_cont b3
            then 4 else 0
        | _ => 0
        end
      else 0
  end.

(** A text as the library hands it on: every byte that does not belong
    to the encoding of a rune becomes U+FFFD. *)
Fixpoint coerce_utf8 (s : bytes) : bytes :=
  match s with
  | [] => []
  | c :: t =>
      if (N_of_ascii c <? 128)%N then c :: coerce_utf8 t
      else
        match utf8_width s, t with
        | 2, b1 :: t1 => c :: b1 :: coerce_utf8 t1
        | 3, b1 :: b2 :: t2 => c :: b1 :: b2 :: coerce_utf8 t2
        | 4, b1 :: b2 :: b3 :: t3 => c :: b1 :: b2 :: b3 :: coerce_utf8 t3
        | _, _ => encode_rune replacement_char ++ coerce_utf8 t
        end
  end.

(** The escapes of one letter. *)
Definition unescape (c : ascii) : option ascii :=
  if Ascii.eqb c dquote then Some dquote
  else if Ascii.eqb c "\" then Some "\"%char
  else if Ascii.eqb c "/" then Some "/"%char
  else if Ascii.eqb c "b" then Some "008"%char
  else if Ascii.eqb c "f" then Some "012"%char
  else if Ascii.eqb c "n" then Some "010"%char
  else if Ascii.eqb c "r" then Some "013"%char
  else if Ascii.eqb c "t" then Some "009"%char
  else None.

(** The body of a string literal, after its opening quote: the bytes it
    denotes and what follows its closing quote.  A control character
    inside the literal is an error; from 128 on, the bytes of a rune are
    taken as they are and any other byte becomes U+FFFD. *)
Fixpoint scan_string (s : bytes) : option (bytes * bytes) :=
  match s with
  | [] => None
  | c :: r =>
      if Ascii.eqb c dquote then Some ([], r)
      else if Ascii.eqb c "\" then
        match r with
        | e :: r1 =>
            if Ascii.eqb e "u" then
              match r1 with
              | a :: b :: c1 :: d :: r2 =>
                  rr ← getu4 a b c1 d;
                  if is_surrogate rr then
                    match r2 with
                    | b1 :: b2 :: a' :: b' :: c' :: d' :: r3 =>
                        match (if Ascii.eqb b1 "\" && Ascii.eqb b2 "u"
                               then getu4 a' b' c' d' ≫= decode_surrogates rr
                               else None) with
                        | Some dec =>
                            '(t, r') ← scan_string r3;
                            Some (encode_rune dec ++ t, r')
                        | None =>
                            '(t, r') ← scan_string r2;
                            Some (encode_rune replacement_char ++ t, r')
                        end
                    | _ =>
                        '(t, r') ← scan_string r2;
                        Some (encode_rune replacement_char ++ t, r')
                    end
                  else
                    '(t, r') ← scan_string r2;
                    Some (encode_rune rr ++ t, r')
              | _ => None
              end
            else
              x ← unescape e;
              '(t, r') ← scan_string r1;
              Some (x :: t, r')
        | [] => None
        end
      else if (N_of_ascii c <? 32)%N then None
      else if (N_of_ascii c <? 128)%N then
        '(t, r') ← scan_string r;
        Some (c :: t, r')
      else
        match utf8_width s, r with
        | 2, b1 :: r1 =>
            '(t, r') ← scan_string r1; Some (c :: b1 :: t, r')
        | 3, b1 :: b2 :: r2 =>
            '(t, r') ← scan_string r2; Some (c :: b1 :: b2 :: t, r')
        | 4, b1 :: b2 :: b3 :: r3 =>
            '(t, r') ← scan_string r3; Some (c :: b1 :: b2 :: b3 :: t, r')
        | _, _ =>
            '(t, r') ← scan_string r;
            Some (encode_rune replacement_char ++ t, r')
        end
  end.

(** ** Parser *)

Definition strip_prefix (p s : bytes) : option bytes :=
  if bool_decide (take (length p) s = p) then Some (drop (length p) s) else None.

(** One member of an object: a string literal, a colon, a value. *)
Definition parse_member (pv : bytes -> option (json * bytes)) (s : bytes)
  : option ((string * json) * bytes) :=
  match skip_space s with
  | c :: r =>
      if Ascii.eqb c dquote then
        '(k, r1) ← scan_string r;
        match skip_space r1 with
        | c1 :: r2 =>
            if Ascii.eqb c1 ":" then
              '(v, r3) ← pv r2; Some ((string_of k, v), r3)
            else None
        | [] => None
        end
      else None
  | [] => None
  end.

(** Recursive descent; [n] bounds the number of nested calls, and one
    more than the length of the text is enough for any text.  This is the
    grammar; the limit the library puts on the depth of nesting is in
    [decode]. *)
Fixpoint parse_value (n : nat) (s : bytes) : option (json * bytes) :=
  match n with
  | O => None
  | S n =>
      match skip_space s with
      | [] => None
      | c :: r =>
          if Ascii.eqb c "n" then r' ← strip_prefix (bytes_of "ull") r; Some (JNull, r')
          else if Ascii.eqb c "t" then
            r' ← strip_prefix (bytes_of "rue") r; Some (JBool true, r')
          else if Ascii.eqb c "f" then
            r' ← strip_prefix (bytes_of "alse") r; Some (JBool false, r')
          else if Ascii.eqb c dquote then
            '(t, r') ← scan_string r; Some (JStr (string_of t), r')
          else if Ascii.eqb c "[" then
            match skip_space r with
            | c1 :: r1 =>
                if Ascii.eqb c1 "]" then Some (JArr [], r1)
                else
                  '(v, r2) ← parse_value n r;
                  '(vs, r3) ← parse_elems n r2;
                  Some (JArr (v :: vs), r3)
            | [] => None
            end
          else if Ascii.eqb c "{" then
            match skip_space r with
            | c1 :: r1 =>
                if Ascii.eqb c1 "}" then Some (JObj [], r1)
                else
                  '(kv, r2) ← parse_member (parse_value n) r;
                  '(kvs, r3) ← parse_members n r2;
                  Some (JObj (kv :: kvs), r3)
            | [] => None
            end
          else
            '(lit, r') ← scan_number (c :: r); Some (JNum lit, r')
      end
  end
with parse_elems (n : nat) (s : bytes) : option (list json * bytes) :=
  match n with
  | O => None
  | S n =>
      match skip_space s with
      | c :: r =>
          if Ascii.eqb c "]" then Some ([], r)
          else if Ascii.eqb c "," then
            '(v, r1) ← parse_value n r;
            '(vs, r2) ← parse_elems n r1;
            Some (v :: vs, r2)
          else None
      | [] => None
      end
  end
with parse_members (n : nat) (s : bytes) : option (list (string * json) * bytes) :=
  match n with
  | O => None
  | S n =>
      match skip_space s with
      | c :: r =>
          if Ascii.eqb c "}" then Some ([], r)
          else if Ascii.eqb c "," then
            '(kv, r1) ← parse_member (parse_value n) r;
            '(kvs, r2) ← parse_members n r1;
            Some (kv :: kvs, r2)
          else None
      | [] => None
      end
  end.

(** The value of a whole text: one value, then only white space. *)
Definition parse (s : bytes) : option json :=
  '(v, r) ← parse_value (S (length s)) s;
  match skip_space r with [] => Some v | _ :: _ => None end.

(** ** Encoder *)

Definition hex_digit (n : N) : ascii :=
  if (n <? 10)%N then ascii_of_N (48 + n) else ascii_of_N (87 + n).

(** How [appendString] writes one byte below 128 (HTML escaping on, as
    [Marshal] has it): quote and backslash get a backslash, backspace,
    form feed, line feed, carriage return and tab their letter, other
    control characters and [<], [>], [&] the form [\u00XY]; every other
    byte is copied. *)
Definition escape_byte (c : ascii) : bytes :=
  let n := N_of_ascii c in
  if Ascii.eqb c dquote || Ascii.eqb c "\" then ["\"%char; c]
  else if Ascii.eqb c "008" then ["\"; "b"]%char
  else if Ascii.eqb c "012" then ["\"; "f"]%char
  else if Ascii.eqb c "010" then ["\"; "n"]%char
  else if Ascii.eqb c "013" then ["\"; "r"]%char
  else if Ascii.eqb c "009" then ["\"; "t"]%char
  else if (n <? 32)%N || Ascii.eqb c "<" || Ascii.eqb c ">" || Ascii.eqb c "&" then
    ["\"; "u"; "0"; "0"; hex_digit (n / 16); hex_digit (n mod 16)]%char
  else [c].

(** U+2028 and U+2029, which [appendString] escapes. *)
Definition is_separator (c b1 b2 : ascii) : bool :=
  Ascii.eqb c "226" && Ascii.eqb b1 "128" && (Ascii.eqb b2 "168" || Ascii.eqb b2 "169").

(** The body of the literal [appendString] writes: from 128 on, the bytes
    of a rune are copied, but for the two separators, and any other byte
    is written as the escape of U+FFFD. *)
Fixpoint quote_bytes (s : bytes) : bytes :=
  match s with
  | [] => []
  | c :: t =>
      if (N_of_ascii c <? 128)%N then escape_byte c ++ quote_bytes t
      else
        match utf8_width s, t with
        | 2, b1 :: t1 => c :: b1 :: quote_bytes t1
        | 3, b1 :: b2 :: t2 =>
            if is_separator c b1 b2
            then bytes_of "\u202" ++ hex_digit (N_of_ascii b2 mod 16) :: quote_bytes t2
            else c :: b1 :: b2 :: quote_bytes t2
        | 4, b1 :: b2 :: b3 :: t3 => c :: b1 :: b2 :: b3 :: quote_bytes t3
        | _, _ => bytes_of "\ufffd" ++ quote_bytes t
        end
  end.

Definition quote (s : string) : bytes :=
  dquote :: quote_bytes (bytes_of s) ++ [dquote].

(** The items after the first of an array or object, and its end. *)
Definition enc_tail {A} (f : A -> bytes) (sep close : bytes) : list A -> bytes :=
  fix go (l : list A) : bytes :=
    match l with
    | [] => close
    | y :: l' => ","%char :: sep ++ f y ++ go l'
    end.

Section Printer.

(** What is written before an item at a depth, and after a colon. *)
Variable nl : nat -> bytes.
Variable sp : bytes.

Definition enc_member (f : json -> bytes) (kv : string * json) : bytes :=
  quote kv.1 ++ ":"%char :: sp ++ f kv.2.

Fixpoint enc (d : nat) (v : json) : bytes :=
  match v with
  | JNull => bytes_of "null"
  | JBool true => bytes_of "true"
  | JBool false => bytes_of "false"
  | JNum lit => lit
  | JStr s => quote s
  | JArr [] => bytes_of "[]"
  | JArr (x :: xs) =>
      "["%char :: nl (S d) ++ enc (S d) x
        ++ enc_tail (enc (S d)) (nl (S d)) (nl d ++ ["]"%char]) xs
  | JObj [] => bytes_of "{}"
  | JObj (kv :: kvs) =>
      "{"%char :: nl (S d) ++ enc_member (enc (S d)) kv
        ++ enc_tail (enc_member (enc (S d))) (nl (S d)) (nl d ++ ["}"%char]) kvs
  end.

End Printer.

(** The compact form [Marshal] writes. *)
Definition compact (v : json) : bytes := enc (fun _ => []) [] 0 v.

(** The form [Indent] gives the compact one: every item on a line of its
    own that starts with [prefix] and one [indent] per level, a space after
    each colon, and [[]] and [{}] left as they are. *)
Definition newline (prefix indent : string) (d : nat) : bytes :=
  "010"%char :: bytes_of prefix ++ concat (replicate d (bytes_of indent)).

Definition indented (prefix indent : string) (v : json) : bytes :=
  enc (newline prefix indent) [" "%char] 0 v.

(** ** Go values *)

(** A finite [float64], given by the text the encoder writes for it
    ([strconv.AppendFloat], in the form with or without an exponent that
    the encoder chooses), which is a number literal. *)
Record float64 : Type := {
  float_text : bytes;
  float_text_number : is_number float_text = true
}.

(** What an [interface{}] can hold, as far as the encoder tells values
    apart: [AUnsupported] stands for the values [Marshal] refuses (a
    channel, a function, a complex number, a NaN or an infinity).  A map
    is given by its entries in key order, which is the order [Marshal]
    writes them in. *)
#[local] Unset Elimination Schemes.
Inductive any : Type :=
| ANil
| ABool (b : bool)
| AInt (z : Z)
| AFloat (f : float64)
| AString (s : string)
| ASlice (l : list any)
| AMap (m : list (string * any))
| AUnsupported.
#[local] Set Elimination Schemes.

Fixpoint uint_bytes (d : Decimal.uint) : bytes :=
  match d with
  | Decimal.Nil => []
  | Decimal.D0 d => "0"%char :: uint_bytes d
  | Decimal.D1 d => "1"%char :: uint_bytes d
  | Decimal.D2 d => "2"%char :: uint_bytes d
  | Decimal.D3 d => "3"%char :: uint_bytes d
  | Decimal.D4 d => "4"%char :: uint_bytes d
  | Decimal.D5 d => "5"%char :: uint_bytes d
  | Decimal.D6 d => "6"%char :: uint_bytes d
  | Decimal.D7 d => "7"%char :: uint_bytes d
  | Decimal.D8 d => "8"%char :: uint_bytes d
  | Decimal.D9 d => "9"%char :: uint_bytes d
  end.

(** [strconv.AppendInt] in base ten. *)
Definition itoa (z : Z) : bytes :=
  match z with
  | Z0 => ["0"%char]
  | Zpos p => uint_bytes (Pos.to_uint p)
  | Zneg p => "-"%char :: uint_bytes (Pos.to_uint p)
  end.

(** The JSON value of a Go value, when it has one. *)
Fixpoint to_json (a : any) : option json :=
  match a with
  | ANil => Some JNull
  | ABool b => Some (JBool b)
  | AInt z => Some (JNum (itoa z))
  | AFloat f => Some (JNum (float_text f))
  | AString s => Some (JStr s)
  | ASlice l => JArr <$> mapM to_json l
  | AMap m => JObj <$> mapM (fun kv => pair kv.1 <$> to_json kv.2) m
  | AUnsupported => None
  end.

(** How deep the arrays and objects of a value are nested. *)
Fixpoint nesting (v : json) : N :=
  match v with
  | JArr elems => N.succ (foldr (fun x acc => N.max (nesting x) acc) 0%N elems)
  | JObj members => N.succ (foldr (fun kv acc => N.max (nesting kv.2) acc) 0%N members)
  | _ => 0%N
  end.

(** The scanner of the library refuses a text whose arrays and objects
    are nested deeper than this. *)
Definition maxNestingDepth : N := 10000.

(** What the library reads from a text: its value, when the text is a
    JSON text and is not nested too deep. *)
Definition decode (s : bytes) : option json :=
  v ← parse s;
  if (nesting v <=? maxNestingDepth)%N then Some v else None.

(** [json.Valid]. *)
Definition Valid (s : bytes) : bool := bool_decide (is_Some (decode s)).

(** ** Well-formed values *)

(** White space only. *)
Definition all_space (ws : bytes) : Prop := forallb is_space ws = true.

(** What may follow a value inside a text: white space, a comma, or the
    end of an array or object. *)
Definition terminator (c : ascii) : bool :=
  is_space c || Ascii.eqb c "," || Ascii.eqb c "]" || Ascii.eqb c "}".

Definition follow_ok (rest : bytes) : bool :=
  match rest with
  | [] => true
  | c :: _ => terminator c
  end.

(** A number literal: it starts with a digit or a minus sign, and the
    scanner reads it whole before anything that may follow a value. *)
Definition number_literal (lit : bytes) : Prop :=
  (∃ c t, lit = c :: t ∧ (is_digit c || Ascii.eqb c "-") = true) ∧
  ∀ rest, follow_ok rest = true → scan_number (lit ++ rest) = Some (lit, rest).

(** A value all of whose numbers are number literals. *)
#[local] Unset Elimination Schemes.
Inductive wf : json → Prop :=
| wf_null : wf JNull
| wf_bool b : wf (JBool b)
| wf_num lit : number_literal lit → wf (JNum lit)
| wf_str s : wf (JStr s)
| wf_arr elems : Forall wf elems → wf (JArr elems)
| wf_obj members : Forall (λ kv, wf kv.2) members → wf (JObj members).
#[local] Set Elimination Schemes.

(** A value as a decoder hands it on: its strings and the names of its
    members coerced to UTF-8. *)
Definition coerce (s : string) : string := string_of (coerce_utf8 (bytes_of s)).

Fixpoint coerce_json (v : json) : json :=
  match v with
  | JStr s => JStr (coerce s)
  | JArr elems => JArr (map coerce_json elems)
  | JObj members => JObj (map (fun kv => (coerce kv.1, coerce_json kv.2)) members)
  | _ => v
  end.

(** The statement of the round trip for one value: it is read back,
    coerced to UTF-8, from what the encoder writes for it at any depth,
    before anything that may follow a value, by a parser with enough calls
    left. *)
Definition reads_back (nl : nat → bytes) (sp : bytes) (v : json) : Prop :=
  ∀ d n rest,
    (length (enc nl sp d v) < n)%nat →
    follow_ok rest = true →
    parse_value n (enc nl sp d v ++ rest) = Some (coerce_json v, rest).

(** Example texts are written with an apostrophe for the double quote. *)
Definition json_text (s : string) : bytes :=
  (λ c, if Ascii.eqb c "'" then dquote else c) <$> bytes_of s.

End Json.

Import Json.

(** * Go values the handler passes around *)

(** Go's [error]: the errors of [encoding/json] the handler can meet, and
    errors made elsewhere.  [Error] is the method of that name; the texts
    of the library errors are abridged. *)
Inductive error : Type :=
| SyntaxError
| UnmarshalTypeError
| UnsupportedValueError
| errors_New (text : string).

Definition Error (e : error) : string :=
  match e with
  | SyntaxError => "json: invalid syntax"
  | UnmarshalTypeError => "json: cannot unmarshal value into Go value"
  | UnsupportedValueError => "json: unsupported value"
  | errors_New text => text
  end.

(** A call that may panic. *)
Inductive outcome (A : Type) : Type :=
| Returns (a : A)
| Panics (msg : string).
Arguments Returns {A} a.
Arguments Panics {A} msg.

(** [url.Values] and [http.Header]: [map[string][]string]. *)
Abbreviation Values := (gmap string (list string)).

(** [Values.Get]: the first value of the key, or the empty string. *)
Definition Values_Get (v : Values) (key : string) : string :=
  match v !! key with
  | Some (x :: _) => x
  | _ => ""
  end.

(** [_, ok := v[key]]. *)
Definition Values_Has (v : Values) (key : string) : bool :=
  match v !! key with
  | Some _ => true
  | None => false
  end.

(** [strings.HasPrefix]. *)
Fixpoint HasPrefix (s p : string) {struct p} : bool :=
  match p with
  | EmptyString => true
  | String a p' =>
      match s with
      | String b s' => Ascii.eqb a b && HasPrefix s' p'
      | EmptyString => false
      end
  end.

(** [strings.Contains]. *)
Fixpoint Contains (s sub : string) : bool :=
  HasPrefix s sub ||
  match s with
  | String _ s' => Contains s' sub
  | EmptyString => false
  end.

(** [strings.Split] for a separator that is not empty: [cur] is the token
    being read, [skip] the bytes of a separator still to pass. *)
Fixpoint Split_from (sep s : string) (skip : nat) (cur : string) : list string :=
  match s with
  | EmptyString => [cur]
  | String c s' =>
      match skip with
      | S k => Split_from sep s' k cur
      | O =>
          if HasPrefix s sep
          then cur :: Split_from sep s' (String.length sep - 1) ""
          else Split_from sep s' 0 (cur +:+ String c "")
      end
  end.

Definition Split (s sep : string) : list string := Split_from sep s 0 "".

(** [mime/multipart]. *)
Record FileHeader : Type := { Filename : string; Size : Z }.

Record Form : Type := {
  Value : Values;
  Form_File : gmap string (list FileHeader)
}.

(** ** encoding/json into the handler's targets *)

(** A decoded [interface{}] is given by the JSON value it was decoded
    from: a string with its bytes coerced to UTF-8, a number by its
    literal, for the [float64] Go reads from it, an object by its members
    in the order of the text, for the map Go makes of them.  A [nil] map
    and an empty one are not told apart. *)
Abbreviation Variables_t := (gmap string json).

Definition store_members (m : Variables_t) (kvs : list (string * json)) : Variables_t :=
  foldl (fun acc kv => <[kv.1 := kv.2]> acc) m kvs.

(** [json.Unmarshal(data, &m)] for [m] of type [map[string]interface{}]:
    the map afterwards and the error.  The text is checked as a whole
    first, so a text that is not valid leaves the map as it was; [null]
    gives the nil map, an object adds its members to the map, and any
    other value is a type error that leaves the map as it was. *)
Definition Unmarshal_map (data : bytes) (m : Variables_t)
  : Variables_t * option error :=
  match decode data with
  | None => (m, Some SyntaxError)
  | Some JNull => (∅, None)
  | Some (JObj kvs) => (store_members m kvs, None)
  | Some _ => (m, Some UnmarshalTypeError)
  end.

(** * handler.go *)

Definition MaxUploadMemorySize : Z := 1024 * 1024 * 10.

Definition ContentTypeJSON : string := "application/json".
Definition ContentTypeGraphQL : string := "application/graphql".
Definition ContentTypeFormURLEncoded : string := "application/x-www-form-urlencoded".
Definition ContentTypeMultipartFormData : string := "multipart/form-data".

Record RequestOptions : Type := {
  Query : string;
  Variables : Variables_t;
  OperationName : string;
  File : gmap string (list FileHeader)
}.

(** [RequestOptions{}]. *)
Definition zero_RequestOptions : RequestOptions :=
  {| Query := ""; Variables := ∅; OperationName := ""; File := ∅ |}.

(** ** encoding/json into [RequestOptions] *)

Definition to_lower (c : ascii) : ascii :=
  let n := N_of_ascii c in
  if (65 <=? n)%N && (n <=? 90)%N then ascii_of_N (n + 32) else c.

(** The fold of a name: letters in lower case, and the two characters
    outside ASCII that fold to a letter, U+017F (long s) to [s] and
    U+212A (Kelvin sign) to [k], given by their UTF-8 bytes. *)
Fixpoint fold_name (s : string) : string :=
  match s with
  | EmptyString => EmptyString
  | String a t =>
      match t with
      | String b t1 =>
          if Ascii.eqb a "197" && Ascii.eqb b "191" then String "s" (fold_name t1)
          else
            match t1 with
            | String c t2 =>
                if Ascii.eqb a "226" && Ascii.eqb b "132" && Ascii.eqb c "170"
                then String "k" (fold_name t2)
                else String (to_lower a) (fold_name t)
            | EmptyString => String (to_lower a) (fold_name t)
            end
      | EmptyString => String (to_lower a) EmptyString
      end
  end.

(** A key names a field when it is the field's JSON name up to Unicode
    case folding; the names of the fields are ASCII. *)
Definition EqualFold (s t : string) : bool := String.eqb (fold_name s) (fold_name t).

Definition save_error (saved : option error) (e : error) : option error :=
  match saved with
  | Some _ => saved
  | None => Some e
  end.

(** One member of the object read into the record: a member whose value
    does not fit its field leaves the field as it is and is remembered as
    the error, if it is the first; the members after it are still read. *)
Definition store_field (st : RequestOptions * option error) (kv : string * json)
  : RequestOptions * option error :=
  let '(o, e) := st in
  let '(k, v) := kv in
  if EqualFold k "query" then
    match v with
    | JStr q =>
        ({| Query := q; Variables := Variables o;
            OperationName := OperationName o; File := File o |}, e)
    | JNull => (o, e)
    | _ => (o, save_error e UnmarshalTypeError)
    end
  else if EqualFold k "variables" then
    match v with
    | JObj kvs =>
        ({| Query := Query o; Variables := store_members (Variables o) kvs;
            OperationName := OperationName o; File := File o |}, e)
    | JNull =>
        ({| Query := Query o; Variables := ∅;
            OperationName := OperationName o; File := File o |}, e)
    | _ => (o, save_error e UnmarshalTypeError)
    end
  else if EqualFold k "operationName" then
    match v with
    | JStr n =>
        ({| Query := Query o; Variables := Variables o;
            OperationName := n; File := File o |}, e)
    | JNull => (o, e)
    | _ => (o, save_error e UnmarshalTypeError)
    end
  else (o, e).

(** [json.Unmarshal(data, &opts)]: the record afterwards and the error.
    [File] has the tag [json:"-"] and is never written. *)
Definition Unmarshal_opts (data : bytes) (o : RequestOptions)
  : RequestOptions * option error :=
  match decode data with
  | None => (o, Some SyntaxError)
  | Some JNull => (o, None)
  | Some (JObj kvs) => foldl store_field (o, None) kvs
  | Some _ => (o, Some UnmarshalTypeError)
  end.

(** ** The request *)

(** [r.Body] by what [ioutil.ReadAll] gets from it: the bytes read and
    the error that ended the reading, if one did. *)
Record Reader : Type := { data : bytes; failure : option error }.

Definition ReadAll (b : Reader) : bytes * option error := (data b, failure b).

(** [*http.Request]: [URL_Query] is what [r.URL.Query()] returns, [Header]
    has its keys in canonical form, [Body] is [None] for a nil body. *)
Record Request : Type := {
  Method : string;
  URL_Query : Values;
  Header : Values;
  Body : option Reader
}.

Definition MethodPost : string := "POST".

Definition getFromMultipartForm (form : Form) : option RequestOptions :=
  let values := Value form in
  let query := Values_Get values "query" in
  if negb (String.eqb query "") then
    let variables : Variables_t := ∅ in
    let variablesStr := Values_Get values "variables" in
    let '(variables, _) := Unmarshal_map (bytes_of variablesStr) variables in
    Some {| Query := query;
            Variables := variables;
            OperationName := Values_Get values "operationName";
            File := Form_File form |}
  else None.

Definition getFromForm (values : Values) : option RequestOptions :=
  let query := Values_Get values "query" in
  if negb (String.eqb query "") then
    let variables : Variables_t := ∅ in
    let variablesStr := Values_Get values "variables" in
    let '(variables, _) := Unmarshal_map (bytes_of variablesStr) variables in
    Some {| Query := query;
            Variables := variables;
            OperationName := Values_Get values "operationName";
            File := ∅ |}
  else None.

(** ** The engine's values (graphql, gqlerrors) *)

Record SourceLocation : Type := { Line : Z; Column : Z }.

(** [gqlerrors.FormattedError]; [originalError] is what [OriginalError()]
    returns, [None] for nil.  [Extensions] is a map, given by its entries
    in key order. *)
Record FormattedError : Type := {
  Message : string;
  Locations : list SourceLocation;
  Path : list any;
  Extensions : list (string * any);
  originalError : option error
}.

Definition OriginalError (e : FormattedError) : option error := originalError e.

(** [graphql.Result]. *)
Record Result : Type := {
  Data : any;
  Errors : list FormattedError;
  Result_Extensions : list (string * any)
}.

(** The structs above as [Marshal] writes them, by their field tags:
    [line] and [column]; [message], [locations], and [path] and
    [extensions] unless empty; [data], and [errors] and [extensions]
    unless empty.  A nil slice is not told apart from an empty one. *)
Definition SourceLocation_json (l : SourceLocation) : json :=
  JObj [("line", JNum (itoa (Line l))); ("column", JNum (itoa (Column l)))].

Definition members_json (m : list (string * any)) : option (list (string * json)) :=
  mapM (fun kv => pair kv.1 <$> to_json kv.2) m.

Definition FormattedError_json (e : FormattedError) : option json :=
  path ← mapM to_json (Path e);
  ext ← members_json (Extensions e);
  Some (JObj ([("message", JStr (Message e));
               ("locations", JArr (SourceLocation_json <$> Locations e))]
              ++ (if path is [] then [] else [("path", JArr path)])
              ++ (if ext is [] then [] else [("extensions", JObj ext)]))).

Definition Result_json (r : Result) : option json :=
  d ← to_json (Data r);
  errs ← mapM FormattedError_json (Errors r);
  ext ← members_json (Result_Extensions r);
  Some (JObj ([("data", d)]
              ++ (if errs is [] then [] else [("errors", JArr errs)])
              ++ (if ext is [] then [] else [("extensions", JObj ext)]))).

(** [json.Marshal(result)] and [json.MarshalIndent(result, prefix, indent)]:
    the bytes, nil with the error when a value has no JSON form. *)
Definition Marshal (r : Result) : bytes * option error :=
  match Result_json r with
  | Some j => (compact j, None)
  | None => ([], Some UnsupportedValueError)
  end.

Definition MarshalIndent (r : Result) (prefix indent : string) : bytes * option error :=
  match Result_json r with
  | Some j => (indented prefix indent j, None)
  | None => ([], Some UnsupportedValueError)
  end.

(** [graphql.Params], over the types of [*graphql.Schema] and
    [context.Context]. *)
Record Params (Schema_t Context_t : Type) : Type := {
  Params_Schema : Schema_t;
  RequestString : string;
  VariableValues : Variables_t;
  Params_OperationName : string;
  Params_Context : Context_t;
  RootObject : gmap string any
}.
Arguments Params_Schema {_ _} _.
Arguments RequestString {_ _} _.
Arguments VariableValues {_ _} _.
Arguments Params_OperationName {_ _} _.
Arguments Params_Context {_ _} _.
Arguments RootObject {_ _} _.

(** What the handler calls and does not define: the form parsers of
    [net/http], the engine, and [html/template]. *)
Class Environment : Type := {
  (** [r.ParseForm()]: [r.PostForm] afterwards, or the error. *)
  ParseForm : Request -> Values + error;
  (** [r.ParseMultipartForm(maxMemory)]: [r.MultipartForm] afterwards, or
      the error. *)
  ParseMultipartForm : Request -> Z -> Form + error;
  (** [*graphql.Schema] and [context.Context], opaque here. *)
  Schema_t : Type;
  Context_t : Type;
  (** [graphql.Do]; the engine has a state of its own, which a call may
      change. *)
  Engine : Type;
  graphql_Do : Params Schema_t Context_t -> Engine -> Result * Engine;
  (** [json.MarshalIndent] on the variables of a request: what it writes
      and its error.  The variables are kept as the JSON values they were
      decoded from, not as the [float64] values and strings Go holds, so
      what the encoder makes of them is not computed here. *)
  MarshalIndent_map : Variables_t -> string -> string -> bytes * option error;
  (** The text of the constant [graphiqlTemplate], the error of parsing a
      template text, and the error of executing the named template with
      its arguments. *)
  graphiqlTemplate : string;
  template_Parse : string -> option error;
  template_Execute : string -> list (string * string) -> option error
}.

Abbreviation Params_t := (Params Schema_t Context_t).

Section Handler.

Context {env : Environment}.

Definition NewRequestOptions (r : Request) : RequestOptions :=
  match getFromForm (URL_Query r) with
  | Some reqOpt => reqOpt
  | None =>
  if negb (String.eqb (Method r) MethodPost) then zero_RequestOptions else
  match Body r with
  | None => zero_RequestOptions
  | Some body =>
  let contentTypeStr := Values_Get (Header r) "Content-Type" in
  let contentTypeTokens := Split contentTypeStr ";" in
  let contentType := hd "" contentTypeTokens in
  if String.eqb contentType ContentTypeGraphQL then
    match ReadAll body with
    | (_, Some _) => zero_RequestOptions
    | (body, None) =>
        {| Query := string_of body; Variables := ∅; OperationName := ""; File := ∅ |}
    end
  else if String.eqb contentType ContentTypeFormURLEncoded then
    match ParseForm r with
    | inr _ => zero_RequestOptions
    | inl PostForm =>
        match getFromForm PostForm with
        | Some reqOpt => reqOpt
        | None => zero_RequestOptions
        end
    end
  else if String.eqb contentType ContentTypeMultipartFormData then
    match ParseMultipartForm r MaxUploadMemorySize with
    | inr _ => zero_RequestOptions
    | inl MultipartForm =>
        match getFromMultipartForm MultipartForm with
        | Some reqOpt => reqOpt
        | None => zero_RequestOptions
        end
    end
  else
    let opts := zero_RequestOptions in
    match ReadAll body with
    | (_, Some _) => opts
    | (body, None) => let '(opts, _) := Unmarshal_opts body opts in opts
    end
  end
  end.

(** What the handler does to the response writer, the engine and the
    result callback, in the order it does it. *)
Inductive event : Type :=
| EvDo (params : Params_t)
| EvHeaderAdd (key value : string)
| EvWriteHeader (code : Z)
| EvWrite (b : bytes)
| EvHttpError (text : string) (code : Z)
| EvExecuteTemplate (name : string) (args : list (string * string))
| EvResultCallback (params : Params_t) (result : Result) (responseBody : bytes).

(** The state a request runs in: the calls made so far, the engine, and
    the package variable [Title]. *)
Record World : Type := {
  trace : list event;
  engine : Engine;
  Title : string
}.

Definition emit (e : event) (w : World) : World :=
  {| trace := trace w ++ [e]; engine := engine w; Title := Title w |}.

(** [graphql.Do(params)]. *)
Definition Do (params : Params_t) (w : World) : Result * World :=
  let '(result, eng) := graphql_Do params (engine w) in
  (result, {| trace := trace w ++ [EvDo params]; engine := eng; Title := Title w |}).

Definition StatusOK : Z := 200.
Definition StatusInternalServerError : Z := 500.

Definition RootObjectFn : Type :=
  Context_t -> Request -> RequestOptions -> gmap string any.

(** [resultCallbackFn] tells whether a callback is set; what the callback
    does is outside the handler, and its call is an event. *)
Record Handler : Type := {
  Schema : option Schema_t;
  pretty : bool;
  graphiql : bool;
  rootObjectFn : option RootObjectFn;
  resultCallbackFn : bool;
  formatErrorFn : option (option error -> FormattedError)
}.

(** * graphiql.go *)

Definition renderGraphiQL (params : Params_t) (w : World) : World :=
  match template_Parse graphiqlTemplate with
  | Some err => emit (EvHttpError (Error err) StatusInternalServerError) w
  | None =>
  match MarshalIndent_map (VariableValues params) "" "  " with
  | (_, Some err) => emit (EvHttpError (Error err) StatusInternalServerError) w
  | (_, None) =>
  let run (w : World) : World :=
    let args := [("Title", Title w)] in
    match template_Execute "index" args with
    | Some err =>
        emit (EvHttpError (Error err) StatusInternalServerError)
          (emit (EvExecuteTemplate "index" args) w)
    | None => emit (EvExecuteTemplate "index" args) w
    end in
  if negb (String.eqb (RequestString params) "") then
    let '(result, w) := Do params w in
    match MarshalIndent result "" "  " with
    | (_, Some err) => emit (EvHttpError (Error err) StatusInternalServerError) w
    | (_, None) => run w
    end
  else run w
  end
  end.

(** * handler.go, continued *)

(** The reported errors through the formatter, when there is one and
    there are errors.  The formatter is a function of the error; its
    calls are not among the events. *)
Definition format_errors (h : Handler) (result : Result) : Result :=
  match formatErrorFn h with
  | Some formatErrorFn =>
      if (0 <? length (Errors result))%nat then
        {| Data := Data result;
           Errors := (fun formattedError => formatErrorFn (OriginalError formattedError))
                       <$> Errors result;
           Result_Extensions := Result_Extensions result |}
      else result
  | None => result
  end.

Definition ContextHandler (h : Handler) (ctx : Context_t) (r : Request) (w : World)
  : outcome World :=
  let opts := NewRequestOptions r in
  match Schema h with
  | None => Panics "invalid memory address or nil pointer dereference"
  | Some schema =>
  let RootObject :=
    match rootObjectFn h with
    | Some rootObjectFn => rootObjectFn ctx r opts
    | None => ∅
    end in
  let params : Params_t :=
    {| Params_Schema := schema;
       RequestString := Query opts;
       VariableValues := Variables opts;
       Params_OperationName := OperationName opts;
       Params_Context := ctx;
       RootObject := RootObject |} in
  let '(result, w) := Do params w in
  let result := format_errors h result in
  let acceptHeader := Values_Get (Header r) "Accept" in
  let raw := Values_Has (URL_Query r) "raw" in
  if graphiql h && (negb raw && negb (Contains acceptHeader "application/json")
                    && Contains acceptHeader "text/html")
  then Returns (renderGraphiQL params w)
  else
    let w := emit (EvHeaderAdd "Content-Type" "application/json; charset=utf-8") w in
    let '(buff, w) :=
      if pretty h then
        let w := emit (EvWriteHeader StatusOK) w in
        let '(buff, _) := MarshalIndent result "" (String "009" "") in
        (buff, emit (EvWrite buff) w)
      else
        let w := emit (EvWriteHeader StatusOK) w in
        let '(buff, _) := Marshal result in
        (buff, emit (EvWrite buff) w) in
    if resultCallbackFn h then Returns (emit (EvResultCallback params result buff) w)
    else Returns w
  end.

Record Config : Type := {
  Config_Title : string;
  Config_Schema : option Schema_t;
  Pretty : bool;
  GraphiQL : bool;
  Config_RootObjectFn : option RootObjectFn;
  ResultCallbackFn : bool;
  FormatErrorFn : option (option error -> FormattedError)
}.

Definition NewConfig : Config :=
  {| Config_Title := "";
     Config_Schema := None;
     Pretty := true;
     GraphiQL := true;
     Config_RootObjectFn := None;
     ResultCallbackFn := false;
     FormatErrorFn := None |}.

(** [New]: the handler and the package variable [Title] afterwards. *)
Definition New (p : option Config) (title : string) : outcome (Handler * string) :=
  let p := match p with None => NewConfig | Some p => p end in
  match Config_Schema p with
  | None => Panics "undefined GraphQL schema"
  | Some _ =>
      let title := if negb (String.eqb (Config_Title p) "") then Config_Title p else title in
      Returns ({| Schema := Config_Schema p;
                  pretty := Pretty p;
                  graphiql := GraphiQL p;
                  rootObjectFn := Config_RootObjectFn p;
                  resultCallbackFn := ResultCallbackFn p;
                  formatErrorFn := FormatErrorFn p |}, title)
  end.

(** * Notions the properties are stated with *)

(** The body of a request as a whole: empty for a nil body, undefined
    when reading it fails. *)
Definition raw_body (r : Request) : option bytes :=
  match Body r with
  | None => Some []
  | Some b => match failure b with None => Some (data b) | Some _ => None end
  end.

(** The content type of a request without its parameters. *)
Definition content_type (r : Request) : string :=
  hd "" (Split (Values_Get (Header r) "Content-Type") ";").

(** The values a POST carries as form data, for the two form content
    types. *)
Definition posted_values (r : Request) : option Values :=
  if String.eqb (content_type r) ContentTypeFormURLEncoded then
    match ParseForm r with inl v => Some v | inr _ => None end
  else if String.eqb (content_type r) ContentTypeMultipartFormData then
    match ParseMultipartForm r MaxUploadMemorySize with
    | inl form => Some (Value form)
    | inr _ => None
    end
  else None.

(** The body [b] of the request is one the handler reads as JSON: it can
    be read, and the content type is none of the three others. *)
Definition read_as_json (r : Request) (b : Reader) : Prop :=
  Body r = Some b ∧ failure b = None ∧
  String.eqb (content_type r) ContentTypeGraphQL = false ∧
  String.eqb (content_type r) ContentTypeFormURLEncoded = false ∧
  String.eqb (content_type r) ContentTypeMultipartFormData = false.

(** The ways the parsing of a request that gives no query in its URL can
    fail: the body cannot be read where the handler reads it itself, the
    form or the multipart form cannot be parsed, or the body read as JSON
    is not a valid JSON text. *)
Inductive parse_failure (r : Request) : Prop :=
| unreadable_body b e :
    Body r = Some b → failure b = Some e →
    String.eqb (content_type r) ContentTypeFormURLEncoded = false →
    String.eqb (content_type r) ContentTypeMultipartFormData = false →
    parse_failure r
| malformed_form b e :
    Body r = Some b →
    content_type r = ContentTypeFormURLEncoded →
    ParseForm r = inr e →
    parse_failure r
| failed_multipart b e :
    Body r = Some b →
    content_type r = ContentTypeMultipartFormData →
    ParseMultipartForm r MaxUploadMemorySize = inr e →
    parse_failure r
| invalid_json_body b :
    read_as_json r b →
    Valid (data b) = false →
    parse_failure r.

(** The execution parameters the handler builds for a request. *)
Definition request_params (h : Handler) (schema : Schema_t) (ctx : Context_t)
    (r : Request) : Params_t :=
  let opts := NewRequestOptions r in
  {| Params_Schema := schema;
     RequestString := Query opts;
     VariableValues := Variables opts;
     Params_OperationName := OperationName opts;
     Params_Context := ctx;
     RootObject :=
       match rootObjectFn h with
       | Some rootObjectFn => rootObjectFn ctx r opts
       | None => ∅
       end |}.

(** The four conditions under which the console page is served. *)
Definition wants_console (h : Handler) (r : Request) : Prop :=
  graphiql h = true ∧
  URL_Query r !! "raw" = None ∧
  Contains (Values_Get (Header r) "Accept") "application/json" = false ∧
  Contains (Values_Get (Header r) "Accept") "text/html" = true.




(** The bytes the handler writes for a result. *)
Definition response_body (h : Handler) (result : Result) : bytes :=
  if pretty h then (MarshalIndent result "" (String "009" "")).1
  else (Marshal result).1.

(** What the renderer does once the engine has run a second time: the
    page, then an error response if the template fails. *)
Definition console_page (title : string) : list event :=
  EvExecuteTemplate "index" [("Title", title)] ::
  match template_Execute "index" [("Title", title)] with
  | Some err => [EvHttpError (Error err) StatusInternalServerError]
  | None => []
  end.

(** The handler with its [pretty] field set. *)
Definition with_pretty (b : bool) (h : Handler) : Handler :=
  {| Schema := Schema h;
     pretty := b;
     graphiql := graphiql h;
     rootObjectFn := rootObjectFn h;
     resultCallbackFn := resultCallbackFn h;
     formatErrorFn := formatErrorFn h |}.

(** The bytes written to the response in a state, and by a call. *)
Definition written (w : World) : bytes :=
  flat_map (λ e, match e with EvWrite b => b | _ => [] end) (trace w).

Definition written_by (o : outcome World) : option bytes :=
  match o with
  | Returns w => Some (written w)
  | Panics _ => None
  end.

End Handler.


(** * Further notions the properties are stated with *)

(** The JSON object a client sends for a query, its variables and its
    operation name. *)
Definition request_json (query : string) (variables : list (string * json))
    (operationName : string) : json :=
  JObj [("query", JStr query); ("variables", JObj variables);
        ("operationName", JStr operationName)].

(** Values whose numbers are integers that a [float64] holds exactly,
    written in decimal: for these the number the decoder stores and the
    text it read determine one another. *)
#[local] Unset Elimination Schemes.
Inductive exact : json → Prop :=
| exact_null : exact JNull
| exact_bool b : exact (JBool b)
| exact_num z : (Z.abs z <= 2 ^ 53)%Z → exact (JNum (itoa z))
| exact_str s : exact (JStr s)
| exact_arr elems : Forall exact elems → exact (JArr elems)
| exact_obj members : Forall (λ kv, exact kv.2) members → exact (JObj members).
#[local] Set Elimination Schemes.

(** The members of an object as the decoder hands them on. *)
Definition coerce_members (members : list (string * json)) : list (string * json) :=
  map (λ kv, (coerce kv.1, coerce_json kv.2)) members.

(** The record with the files of a form. *)
Definition with_files (files : gmap string (list FileHeader)) (o : RequestOptions)
  : RequestOptions :=
  {| Query := Query o; Variables := Variables o;
     OperationName := OperationName o; File := files |}.

Section MoreNotions.

Context {env : Environment}.

(** The calls of the engine among some events. *)
Definition is_engine_call (e : event) : bool :=
  match e with
  | EvDo _ => true
  | _ => false
  end.

Definition engine_calls (evs : list event) : nat :=
  length (List.filter is_engine_call evs).

(** What the handler does to the response writer itself, and its call of
    the result callback. *)
Definition is_own_output (e : event) : bool :=
  match e with
  | EvHeaderAdd _ _ | EvWriteHeader _ | EvWrite _ | EvResultCallback _ _ _ => true
  | _ => false
  end.



(** The error that makes the renderer answer 500 before it runs the query
    again: that of parsing the template, or else that of marshalling the
    variables. *)
Definition early_exit (params : Params_t) : option error :=
  match template_Parse graphiqlTemplate with
  | Some err => Some err
  | None => (MarshalIndent_map (VariableValues params) "" "  ").2
  end.


End MoreNotions.


(** * The handler with entry, exit and finish hooks

    A second handler.go of the repository has the request options, their
    resolution and the content types of the first word for word, and a
    handler with three hooks in place of the root object function, the
    result callback and the error formatter. *)

Module Hooks.

Section Hooks.

Context {env : Environment}.

(** The calls of this handler: those of the first one, and the calls of
    the two hooks that are given the response writer. *)
Inductive call : Type :=
| Call (e : event)
| CallExit
| CallFinish (buf : bytes).

Record World : Type := {
  trace : list call;
  engine : Engine
}.

Definition emit (c : call) (w : World) : World :=
  {| trace := trace w ++ [c]; engine := engine w |}.

Definition EntryFn : Type :=
  Context_t -> Request -> RequestOptions -> gmap string any.

(** [exitFn] and [finishFn] tell whether the hook is set; what a hook does
    is outside the handler, and its call is an event. *)
Record Handler : Type := {
  Schema : option Schema_t;
  pretty : bool;
  graphiql : bool;
  subscription : string;
  title : string;
  entryFn : option EntryFn;
  exitFn : bool;
  finishFn : bool
}.

(** [renderGraphiQL(w, h, params)] of this handler is not among the
    sources: it is taken by the calls it makes and the state it leaves the
    engine in. *)
Variable renderGraphiQL : Handler -> Params_t -> Engine -> list call * Engine.

(** The deferred call of [exitFn], which runs when the handler returns and
    when it panics. *)
Definition deferred (h : Handler) (w : World) : World :=
  if exitFn h then emit CallExit w else w.

(** [ContextHandler]: the state it leaves, and the panic it ends with, if
    it does. *)
Definition ContextHandler (h : Handler) (ctx : Context_t) (r : Request) (w : World)
  : World * option string :=
  let opts := NewRequestOptions r in
  match Schema h with
  | None => (deferred h w, Some "invalid memory address or nil pointer dereference")
  | Some schema =>
  let RootObject :=
    match entryFn h with
    | Some entryFn => entryFn ctx r opts
    | None => ∅
    end in
  let params : Params_t :=
    {| Params_Schema := schema;
       RequestString := Query opts;
       VariableValues := Variables opts;
       Params_OperationName := OperationName opts;
       Params_Context := ctx;
       RootObject := RootObject |} in
  let '(result, eng) := graphql_Do params (engine w) in
  let w := {| trace := trace w ++ [Call (EvDo params)]; engine := eng |} in
  let acceptHeader := Values_Get (Header r) "Accept" in
  let raw := Values_Has (URL_Query r) "raw" in
  if graphiql h && (negb raw && negb (Contains acceptHeader "application/json")
                    && Contains acceptHeader "text/html")
  then
    let '(evs, eng) := renderGraphiQL h params (engine w) in
    (deferred h {| trace := trace w ++ evs; engine := eng |}, None)
  else
    let w := emit (Call (EvHeaderAdd "Content-Type" "application/json; charset=utf-8")) w in
    let '(buff, w) :=
      if pretty h then
        let w := emit (Call (EvWriteHeader StatusOK)) w in
        let '(buff, _) := MarshalIndent result "" " " in
        (buff, emit (Call (EvWrite buff)) w)
      else
        let w := emit (Call (EvWriteHeader StatusOK)) w in
        let '(buff, _) := Marshal result in
        (buff, emit (Call (EvWrite buff)) w) in
    let w := if finishFn h then emit (CallFinish buff) w else w in
    (deferred h w, None)
  end.

Record Config : Type := {
  Title : string;
  Config_Schema : option Schema_t;
  Pretty : bool;
  GraphiQL : bool;
  Config_EntryFn : option EntryFn;
  ExitFn : bool;
  Subscription : string;
  FinishFn : bool
}.

Definition NewConfig : Config :=
  {| Title := "";
     Config_Schema := None;
     Pretty := true;
     GraphiQL := true;
     Config_EntryFn := None;
     ExitFn := false;
     Subscription := "";
     FinishFn := false |}.

Definition New (p : option Config) : outcome Handler :=
  let p := match p with None => NewConfig | Some p => p end in
  match Config_Schema p with
  | None => Panics "undefined GraphQL schema"
  | Some _ =>
      Returns {| exitFn := ExitFn p;
                 Schema := Config_Schema p;
                 pretty := Pretty p;
                 graphiql := GraphiQL p;
                 entryFn := Config_EntryFn p;
                 subscription := Subscription p;
                 title := Title p;
                 finishFn := FinishFn p |}
  end.

(** The execution parameters this handler builds for a request. *)
Definition request_params (h : Handler) (schema : Schema_t) (ctx : Context_t)
    (r : Request) : Params_t :=
  let opts := NewRequestOptions r in
  {| Params_Schema := schema;
     RequestString := Query opts;
     VariableValues := Variables opts;
     Params_OperationName := OperationName opts;
     Params_Context := ctx;
     RootObject :=
       match entryFn h with
       | Some entryFn => entryFn ctx r opts
       | None => ∅
       end |}.

(** The bytes this handler writes for a result. *)
Definition response_body (h : Handler) (result : Result) : bytes :=
  if pretty h then (MarshalIndent result "" " ").1 else (Marshal result).1.

(** The console condition of this handler. *)
Definition wants_console (h : Handler) (r : Request) : Prop :=
  graphiql h = true ∧
  URL_Query r !! "raw" = None ∧
  Contains (Values_Get (Header r) "Accept") "application/json" = false ∧
  Contains (Values_Get (Header r) "Accept") "text/html" = true.

End Hooks.

End Hooks.


(** * Sample requests and a sample environment *)

Definition sample_pair (kv : string) : string * list string :=
  match Split kv "=" with
  | k :: v :: _ => (k, [v])
  | k :: [] => (k, [""])
  | [] => ("", [""])
  end.

(** A form parser for bodies of [key=value] pairs with [&] between them,
    without escapes; it fails when the body cannot be read. *)
Definition sample_ParseForm (r : Request) : Values + error :=
  match Body r with
  | None => inr (errors_New "missing form body")
  | Some b =>
      match failure b with
      | Some e => inr e
      | None => inl (list_to_map (sample_pair <$> Split (string_of (data b)) "&"))
      end
  end.

Definition sample_ParseMultipartForm (r : Request) (maxMemory : Z) : Form + error :=
  match sample_ParseForm r with
  | inl v =>
      inl {| Value := v;
             Form_File := {["upload" := [{| Filename := "a.txt"; Size := 3 |}]]} |}
  | inr e => inr e
  end.

Definition sample_data : Result :=
  {| Data := AMap [("me", AMap [("name", AString "Ada <ada@example.org>"); ("age", AInt 36)])];
     Errors := [];
     Result_Extensions := [] |}.

Definition sample_failure : Result :=
  {| Data := ANil;
     Errors :=
       [{| Message := "Cannot query field nope";
           Locations := [{| Line := 1; Column := 3 |}];
           Path := [];
           Extensions := [];
           originalError := Some (errors_New "unknown field") |};
        {| Message := "Syntax error";
           Locations := [];
           Path := [AString "nope"; AInt 0];
           Extensions := [];
           originalError := None |}];
     Result_Extensions := [] |}.

(** A result with a value [Marshal] refuses, as a NaN is. *)
Definition sample_unsupported : Result :=
  {| Data := AMap [("ratio", AUnsupported)]; Errors := []; Result_Extensions := [] |}.

(** A result with a float, and with a string that has a backspace, a
    byte that is not UTF-8 and the separator U+2028 in it. *)
Definition sample_score : Result :=
  {| Data :=
       AMap [("note", AString (String "008" (String "255" (String "226" (String "128"
                                 (String "168" "x"))))));
             ("score", AFloat {| float_text := bytes_of "1.5e-7";
                                 float_text_number := eq_refl |})];
     Errors := [];
     Result_Extensions := [] |}.

(** An engine that knows three queries and counts its calls. *)
Definition sample_Do (params : Params unit unit) (calls : nat) : Result * nat :=
  (if String.eqb (RequestString params) "{ me }" then sample_data
   else if String.eqb (RequestString params) "{ ratio }" then sample_unsupported
   else if String.eqb (RequestString params) "{ score }" then sample_score
   else sample_failure,
   S calls).

(** An encoder that writes every map of variables. *)
Definition sample_MarshalIndent_map (m : Variables_t) (prefix indent : string)
  : bytes * option error :=
  (indented prefix indent (JObj (map_to_list m)), None).

Definition sample_env : Environment :=
  {| ParseForm := sample_ParseForm;
     ParseMultipartForm := sample_ParseMultipartForm;
     Schema_t := unit;
     Context_t := unit;
     Engine := nat;
     graphql_Do := sample_Do;
     MarshalIndent_map := sample_MarshalIndent_map;
     graphiqlTemplate := "{{ define index }}{{.Title}}{{ end }}";
     template_Parse := λ _, None;
     template_Execute := λ _ _, None |}.

Definition sample_format (e : option error) : FormattedError :=
  {| Message := match e with Some e => Error e | None => "internal error" end;
     Locations := [];
     Path := [];
     Extensions := [("code", AString "FAILED")];
     originalError := e |}.

Definition sample_schema : @Schema_t sample_env := tt.
Definition sample_ctx : @Context_t sample_env := tt.

Definition sample_handler : @Handler sample_env :=
  {| Schema := Some sample_schema;
     pretty := false;
     graphiql := true;
     rootObjectFn := None;
     resultCallbackFn := true;
     formatErrorFn := Some sample_format |}.

Definition sample_world : @World sample_env :=
  {| trace := []; engine := (0%nat : @Engine sample_env); Title := "GraphQL Playground" |}.

Definition sample_config : @Config sample_env :=
  {| Config_Title := "Console";
     Config_Schema := Some sample_schema;
     Pretty := true;
     GraphiQL := false;
     Config_RootObjectFn := None;
     ResultCallbackFn := false;
     FormatErrorFn := None |}.

Definition unreadable : Reader :=
  {| data := bytes_of "{ m"; failure := Some (errors_New "unexpected EOF") |}.

Definition readable (s : string) : Reader := {| data := bytes_of s; failure := None |}.

(** [DELETE /?query={ me }&operationName=Me] with a body that breaks off. *)
Definition sample_delete : Request :=
  {| Method := "DELETE";
     URL_Query := {["query" := ["{ me }"]; "operationName" := ["Me"]]};
     Header := {["Content-Type" := ["application/json"]]};
     Body := Some unreadable |}.

(** A browser opening [/?query={ me }]. *)
Definition sample_browser : Request :=
  {| Method := "GET";
     URL_Query := {["query" := ["{ me }"]]};
     Header := {["Accept" := ["text/html,application/xhtml+xml"]]};
     Body := None |}.

(** [GET /?query={ nope }&raw]. *)
Definition sample_raw : Request :=
  {| Method := "GET";
     URL_Query := {["query" := ["{ nope }"]; "raw" := [""]]};
     Header := {["Accept" := ["text/html"]]};
     Body := None |}.

(** [GET /?query={ score }] from a client that accepts anything. *)
Definition sample_score_request : Request :=
  {| Method := "GET";
     URL_Query := {["query" := ["{ score }"]]};
     Header := {["Accept" := ["*/*"]]};
     Body := None |}.

(** [GET /?query={ ratio }] from a client that accepts anything. *)
Definition sample_ratio : Request :=
  {| Method := "GET";
     URL_Query := {["query" := ["{ ratio }"]]};
     Header := {["Accept" := ["*/*"]]};
     Body := None |}.

Definition sample_post (contentType body : string) : Request :=
  {| Method := "POST";
     URL_Query := ∅;
     Header := {["Content-Type" := [contentType]]};
     Body := Some (readable body) |}.

Definition sample_graphql : Request :=
  sample_post "application/graphql; charset=utf-8" "{ me }".

Definition sample_form : Request :=
  sample_post "application/x-www-form-urlencoded" "query={ me }&variables={bad&operationName=Me".

Definition sample_broken : Request :=
  {| Method := "POST";
     URL_Query := ∅;
     Header := {["Content-Type" := ["application/json"]]};
     Body := Some unreadable |}.

(** A JSON body whose [variables] member is a number. *)
Definition sample_mistyped : Request :=
  {| Method := "POST";
     URL_Query := ∅;
     Header := {["Content-Type" := ["application/json"]]};
     Body := Some {| data := json_text "{'query':'{ me }','variables':1}";
                     failure := None |} |}.

(** ** Further sample requests *)

Definition sample_request (method contentType : string) (body : bytes) : Request :=
  {| Method := method;
     URL_Query := ∅;
     Header := {["Content-Type" := [contentType]]};
     Body := Some {| data := body; failure := None |} |}.

(** [GET /] with a JSON body, which no one reads. *)
Definition sample_get_with_body : Request :=
  sample_request "GET" "application/json" (json_text "{'query':'{ me }'}").

(** A posted form without a [query]. *)
Definition sample_form_without_query : Request :=
  sample_post "application/x-www-form-urlencoded" "variables={}&operationName=Me".

Definition sample_graphql_plain : Request := sample_post "application/graphql" "{ me }".

(** A multipart form, which the sample parser gives one file. *)
Definition sample_upload : Request :=
  sample_post "multipart/form-data; boundary=x" "query={ me }&operationName=Me".

(** A JSON body with variables and no query. *)
Definition sample_variables_only : Request :=
  sample_request "POST" "application/json" (json_text "{'variables':{'id':7}}").

Definition sample_vars : list (string * json) :=
  [("id", JNum (itoa 7)); ("name", JStr "Ada"); ("tags", JArr [JStr "a"; JNull])].

Definition sample_values : Values :=
  {["query" := ["{ me }"];
    "variables" := [string_of (compact (JObj sample_vars))];
    "operationName" := ["Me"]]}.

(** The body a client writes for a query with variables, indented. *)
Definition sample_json_request : Request :=
  sample_request "POST" "application/json; charset=utf-8"
    (indented "" "  " (request_json "{ me }" sample_vars "Me")).

(** Variables that are valid JSON and not an object. *)
Definition sample_values_array : Values :=
  {["query" := ["{ me }"]; "variables" := ["[1,2]"]; "operationName" := ["Me"]]}.

(** A browser opening [/]. *)
Definition sample_browser_plain : Request :=
  {| Method := "GET";
     URL_Query := ∅;
     Header := {["Accept" := ["text/html"]]};
     Body := None |}.

(** The sample environment with a template that does not parse. *)
Definition sample_env_broken_template : Environment :=
  {| ParseForm := sample_ParseForm;
     ParseMultipartForm := sample_ParseMultipartForm;
     Schema_t := unit;
     Context_t := unit;
     Engine := nat;
     graphql_Do := sample_Do;
     MarshalIndent_map := sample_MarshalIndent_map;
     graphiqlTemplate := "{{ define index }}{{.Title}";
     template_Parse := λ _, Some (errors_New "template: GraphiQL:1: unclosed action");
     template_Execute := λ _ _, None |}.

Definition sample_schema_broken_template : @Schema_t sample_env_broken_template := tt.
Definition sample_ctx_broken_template : @Context_t sample_env_broken_template := tt.

Definition sample_handler_broken_template : @Handler sample_env_broken_template :=
  {| Schema := Some sample_schema_broken_template;
     pretty := false;
     graphiql := true;
     rootObjectFn := None;
     resultCallbackFn := true;
     formatErrorFn := None |}.

Definition sample_world_broken_template : @World sample_env_broken_template :=
  {| trace := []; engine := (0%nat : @Engine sample_env_broken_template);
     Title := "GraphQL Playground" |}.

(** A handler without a formatter. *)
Definition sample_plain_handler : @Handler sample_env :=
  {| Schema := Some sample_schema;
     pretty := true;
     graphiql := true;
     rootObjectFn := None;
     resultCallbackFn := true;
     formatErrorFn := None |}.

(** The sample handler with [pretty] on and without a result callback. *)
Definition sample_handler_quiet : @Handler sample_env :=
  {| Schema := Some sample_schema;
     pretty := true;
     graphiql := true;
     rootObjectFn := None;
     resultCallbackFn := false;
     formatErrorFn := Some sample_format |}.

(** Two configurations with a console and a title each. *)
Definition sample_config_first : @Config sample_env :=
  {| Config_Title := "Console";
     Config_Schema := Some sample_schema;
     Pretty := true;
     GraphiQL := true;
     Config_RootObjectFn := None;
     ResultCallbackFn := false;
     FormatErrorFn := None |}.

Definition sample_config_second : @Config sample_env :=
  {| Config_Title := "Explorer";
     Config_Schema := Some sample_schema;
     Pretty := false;
     GraphiQL := true;
     Config_RootObjectFn := None;
     ResultCallbackFn := false;
     FormatErrorFn := None |}.

Definition sample_handler_first : @Handler sample_env :=
  {| Schema := Some sample_schema;
     pretty := true;
     graphiql := true;
     rootObjectFn := None;
     resultCallbackFn := false;
     formatErrorFn := None |}.

Definition sample_handler_second : @Handler sample_env :=
  {| Schema := Some sample_schema;
     pretty := false;
     graphiql := true;
     rootObjectFn := None;
     resultCallbackFn := false;
     formatErrorFn := None |}.

Definition sample_world_second : @World sample_env :=
  {| trace := []; engine := (0%nat : @Engine sample_env); Title := "Explorer" |}.








(** ** A sample handler with hooks *)

(** A renderer that executes the page with the title of the handler. *)
Definition sample_hooks_render (h : @Hooks.Handler sample_env)
    (params : Params (@Schema_t sample_env) (@Context_t sample_env))
    (eng : @Engine sample_env)
  : list (@Hooks.call sample_env) * @Engine sample_env :=
  ([Hooks.Call (EvExecuteTemplate "index" [("Title", Hooks.title h)])], eng).

Definition sample_hooks_handler : @Hooks.Handler sample_env :=
  {| Hooks.Schema := Some sample_schema;
     Hooks.pretty := true;
     Hooks.graphiql := true;
     Hooks.subscription := "";
     Hooks.title := "Console";
     Hooks.entryFn := None;
     Hooks.exitFn := true;
     Hooks.finishFn := true |}.

Definition sample_hooks_world : @Hooks.World sample_env :=
  {| Hooks.trace := []; Hooks.engine := (0%nat : @Engine sample_env) |}.



(** * Properties *)

(** ** encoding/json *)

(** Induction on JSON values, with the hypothesis for every element and
    member value. *)
Lemma json_ind (P : json → Prop) :
  P JNull →
  (∀ b, P (JBool b)) →
  (∀ lit, P (JNum lit)) →
  (∀ s, P (JStr s)) →
  (∀ elems, Forall P elems → P (JArr elems)) →
  (∀ members, Forall (λ kv, P kv.2) members → P (JObj members)) →
  ∀ v, P v.
Proof.
  intros Hnull Hbool Hnum Hstr Harr Hobj.
  fix IH 1. intros [ | b | lit | s | elems | members].
  - apply Hnull.
  - apply Hbool.
  - apply Hnum.
  - apply Hstr.
  - apply Harr. induction elems as [|x xs IHxs]; constructor; [apply IH | exact IHxs].
  - apply Hobj. induction members as [|[k x] xs IHxs]; constructor; [apply IH | exact IHxs].
Qed.

Lemma skip_space_app (ws s : bytes) :
  all_space ws → skip_space (ws ++ s) = skip_space s.
Proof.
  unfold all_space. induction ws as [|c ws IH]; simpl; [reflexivity|].
  intros H. apply andb_true_iff in H as [Hc Hws]. rewrite Hc. auto.
Qed.

Lemma scan_string_escape_byte (c : ascii) (tl : bytes) :
  (N_of_ascii c <? 128)%N = true →
  scan_string (escape_byte c ++ tl) = '(t, r) ← scan_string tl; Some (c :: t, r).
Proof.
  destruct c as [[] [] [] [] [] [] [] []]; intros H; try discriminate H; reflexivity.
Qed.

Lemma scan_string_high (c : ascii) (r : bytes) :
  (N_of_ascii c <? 128)%N = false →
  scan_string (c :: r) =
    match utf8_width (c :: r), r with
    | 2, b1 :: r1 => '(t, r') ← scan_string r1; Some (c :: b1 :: t, r')
    | 3, b1 :: b2 :: r2 => '(t, r') ← scan_string r2; Some (c :: b1 :: b2 :: t, r')
    | 4, b1 :: b2 :: b3 :: r3 =>
        '(t, r') ← scan_string r3; Some (c :: b1 :: b2 :: b3 :: t, r')
    | _, _ => '(t, r') ← scan_string r; Some (encode_rune replacement_char ++ t, r')
    end.
Proof.
  destruct c as [[] [] [] [] [] [] [] []]; intros H; try discriminate H; reflexivity.
Qed.

Lemma scan_string_replacement (tl : bytes) :
  scan_string (bytes_of "\ufffd" ++ tl) =
    '(t, r) ← scan_string tl; Some (encode_rune replacement_char ++ t, r).
Proof. reflexivity. Qed.

Lemma scan_string_separator (b2 : ascii) (tl : bytes) :
  (Ascii.eqb b2 "168" || Ascii.eqb b2 "169") = true →
  scan_string (bytes_of "\u202" ++ hex_digit (N_of_ascii b2 mod 16) :: tl) =
    '(t, r) ← scan_string tl; Some ("226"%char :: "128"%char :: b2 :: t, r).
Proof.
  intros H. apply orb_true_iff in H as [H | H]; apply Ascii.eqb_eq in H; subst b2;
    reflexivity.
Qed.

Lemma quote_bytes_cons (c : ascii) (t : bytes) :
  quote_bytes (c :: t) =
    if (N_of_ascii c <? 128)%N then escape_byte c ++ quote_bytes t
    else
      match utf8_width (c :: t), t with
      | 2, b1 :: t1 => c :: b1 :: quote_bytes t1
      | 3, b1 :: b2 :: t2 =>
          if is_separator c b1 b2
          then bytes_of "\u202" ++ hex_digit (N_of_ascii b2 mod 16) :: quote_bytes t2
          else c :: b1 :: b2 :: quote_bytes t2
      | 4, b1 :: b2 :: b3 :: t3 => c :: b1 :: b2 :: b3 :: quote_bytes t3
      | _, _ => bytes_of "\ufffd" ++ quote_bytes t
      end.
Proof. reflexivity. Qed.

Lemma coerce_utf8_cons (c : ascii) (t : bytes) :
  coerce_utf8 (c :: t) =
    if (N_of_ascii c <? 128)%N then c :: coerce_utf8 t
    else
      match utf8_width (c :: t), t with
      | 2, b1 :: t1 => c :: b1 :: coerce_utf8 t1
      | 3, b1 :: b2 :: t2 => c :: b1 :: b2 :: coerce_utf8 t2
      | 4, b1 :: b2 :: b3 :: t3 => c :: b1 :: b2 :: b3 :: coerce_utf8 t3
      | _, _ => encode_rune replacement_char ++ coerce_utf8 t
      end.
Proof. reflexivity. Qed.

(** Whether a text starts with the bytes of a rune is decided by these
    bytes, whatever follows them. *)
Lemma utf8_width_prefix (c : ascii) (t : bytes) :
  match utf8_width (c :: t), t with
  | 2, b1 :: _ => ∀ t', utf8_width (c :: b1 :: t') = 2
  | 3, b1 :: b2 :: _ => ∀ t', utf8_width (c :: b1 :: b2 :: t') = 3
  | 4, b1 :: b2 :: b3 :: _ => ∀ t', utf8_width (c :: b1 :: b2 :: b3 :: t') = 4
  | _, _ => True
  end.
Proof.
  unfold utf8_width.
  destruct (in_range 194 223 c).
  { destruct t as [|b1 t1]; [exact I|]. destruct (is_cont b1); [reflexivity | exact I]. }
  destruct (in_range 224 239 c).
  { destruct t as [|b1 [|b2 t2]]; try exact I.
    destruct (in_range _ _ b1 && is_cont b2); [reflexivity | exact I]. }
  destruct (in_range 240 244 c); [|exact I].
  destruct t as [|b1 [|b2 [|b3 t3]]]; try exact I.
  destruct (in_range _ _ b1 && is_cont b2 && is_cont b3); [reflexivity | exact I].
Qed.

(** The string scanner reads the literal the encoder writes for a text
    back as the text, coerced to UTF-8. *)
Lemma scan_string_quote_bytes (n : nat) (l rest : bytes) :
  (length l <= n)%nat →
  scan_string (quote_bytes l ++ dquote :: rest) = Some (coerce_utf8 l, rest).
Proof.
  revert l. induction n as [|n IH]; intros [|c t] Hn; try reflexivity.
  { simpl in Hn. lia. }
  cbn [length] in Hn.
  assert (IH0 : scan_string (quote_bytes t ++ dquote :: rest)
                = Some (coerce_utf8 t, rest)) by (apply IH; lia).
  rewrite quote_bytes_cons, coerce_utf8_cons.
  destruct (N_of_ascii c <? 128)%N eqn:Hc.
  { rewrite <- app_assoc, (scan_string_escape_byte _ _ Hc), IH0. reflexivity. }
  pose proof (utf8_width_prefix c t) as Hw.
  assert (Hbad : scan_string ((bytes_of "\ufffd" ++ quote_bytes t) ++ dquote :: rest)
                 = Some (encode_rune replacement_char ++ coerce_utf8 t, rest)).
  { rewrite <- app_assoc, scan_string_replacement, IH0. reflexivity. }
  destruct (utf8_width (c :: t)) as [|[|[|[|[|w]]]]]; try exact Hbad.
  - destruct t as [|b1 t1]; [exact Hbad|].
    rewrite <- !app_comm_cons, (scan_string_high _ _ Hc), Hw.
    rewrite IH by (cbn [length] in Hn; lia). reflexivity.
  - destruct t as [|b1 [|b2 t2]]; try exact Hbad.
    destruct (is_separator c b1 b2) eqn:Hs.
    + unfold is_separator in Hs.
      apply andb_true_iff in Hs as [Hs H2]. apply andb_true_iff in Hs as [H0 H1].
      apply Ascii.eqb_eq in H0, H1. subst c b1.
      rewrite <- app_assoc, <- app_comm_cons, (scan_string_separator _ _ H2).
      rewrite IH by (cbn [length] in Hn; lia). reflexivity.
    + rewrite <- !app_comm_cons, (scan_string_high _ _ Hc), Hw.
      rewrite IH by (cbn [length] in Hn; lia). reflexivity.
  - destruct t as [|b1 [|b2 [|b3 t3]]]; try exact Hbad.
    rewrite <- !app_comm_cons, (scan_string_high _ _ Hc), Hw.
    rewrite IH by (cbn [length] in Hn; lia). reflexivity.
Qed.

Lemma scan_string_escape (l rest : bytes) :
  scan_string (quote_bytes l ++ dquote :: rest) = Some (coerce_utf8 l, rest).
Proof. apply (scan_string_quote_bytes (length l)). lia. Qed.

Lemma terminator_ends_number (c : ascii) :
  terminator c = true →
  is_digit c = false ∧ Ascii.eqb c "." = false ∧
  (Ascii.eqb c "e" || Ascii.eqb c "E") = false.
Proof.
  destruct c as [[] [] [] [] [] [] [] []]; intros H; try discriminate H;
    repeat split.
Qed.

Lemma span_digits_end (rest : bytes) :
  follow_ok rest = true → span_digits rest = ([], rest).
Proof.
  destruct rest as [|c rest]; [reflexivity|]. simpl. intros H.
  apply terminator_ends_number in H as (-> & _). reflexivity.
Qed.

Lemma scan_frac_end (rest : bytes) :
  follow_ok rest = true → scan_frac rest = Some ([], rest).
Proof.
  destruct rest as [|c rest]; [reflexivity|]. simpl. intros H.
  apply terminator_ends_number in H as (_ & -> & _). reflexivity.
Qed.

Lemma scan_exp_end (rest : bytes) :
  follow_ok rest = true → scan_exp rest = Some ([], rest).
Proof.
  destruct rest as [|c rest]; [reflexivity|]. simpl. intros H.
  apply terminator_ends_number in H as (_ & _ & ->). reflexivity.
Qed.

(** The scanners of a number read the same token when something that
    may follow a value is put after the text. *)
Lemma span_digits_app (s rest : bytes) :
  follow_ok rest = true →
  span_digits (s ++ rest) = ((span_digits s).1, (span_digits s).2 ++ rest).
Proof.
  intros H. induction s as [|c s IH].
  { cbn [app]. rewrite (span_digits_end _ H). reflexivity. }
  cbn [app span_digits]. destruct (is_digit c); [|reflexivity].
  rewrite IH. destruct (span_digits s). reflexivity.
Qed.

Lemma span_digits_concat (s : bytes) : s = (span_digits s).1 ++ (span_digits s).2.
Proof.
  induction s as [|c s IH]; [reflexivity|].
  cbn [span_digits]. destruct (is_digit c); [|reflexivity].
  destruct (span_digits s). simpl in *. f_equal. exact IH.
Qed.

Lemma scan_int_app (s tok r rest : bytes) :
  follow_ok rest = true →
  scan_int s = Some (tok, r) →
  scan_int (s ++ rest) = Some (tok, r ++ rest) ∧ s = tok ++ r ∧
  ∃ c t, tok = c :: t ∧ is_digit c = true.
Proof.
  intros H. destruct s as [|c s]; [discriminate|].
  cbn [app scan_int]. destruct (Ascii.eqb c "0") eqn:H0.
  { intros [= <- <-]. apply Ascii.eqb_eq in H0. subst c. repeat split. eauto. }
  destruct (is_digit c) eqn:Hd; [|discriminate].
  rewrite (span_digits_app _ _ H). pose proof (span_digits_concat s) as Hs.
  destruct (span_digits s) as [ds r']. simpl in *.
  intros [= <- <-]. split; [reflexivity|]. split; [simpl; f_equal; exact Hs | eauto].
Qed.

Lemma scan_frac_app (s tok r rest : bytes) :
  follow_ok rest = true →
  scan_frac s = Some (tok, r) →
  scan_frac (s ++ rest) = Some (tok, r ++ rest) ∧ s = tok ++ r.
Proof.
  intros H. destruct s as [|c s].
  { intros [= <- <-]. split; [apply scan_frac_end, H | reflexivity]. }
  cbn [app scan_frac]. destruct (Ascii.eqb c "."); [|intros [= <- <-]; split; reflexivity].
  rewrite (span_digits_app _ _ H). pose proof (span_digits_concat s) as Hs.
  destruct (span_digits s) as [[|d ds] r']; [discriminate|]. simpl in *.
  intros [= <- <-]. split; [reflexivity | simpl; f_equal; exact Hs].
Qed.

Lemma scan_exp_app (s tok r rest : bytes) :
  follow_ok rest = true →
  scan_exp s = Some (tok, r) →
  scan_exp (s ++ rest) = Some (tok, r ++ rest) ∧ s = tok ++ r.
Proof.
  intros H. destruct s as [|c s].
  { intros [= <- <-]. split; [apply scan_exp_end, H | reflexivity]. }
  cbn [app scan_exp].
  destruct (Ascii.eqb c "e" || Ascii.eqb c "E"); [|intros [= <- <-]; split; reflexivity].
  destruct s as [|c1 s1]; [discriminate|]. cbn [app].
  destruct (Ascii.eqb c1 "+" || Ascii.eqb c1 "-").
  - rewrite (span_digits_app _ _ H). pose proof (span_digits_concat s1) as Hs.
    destruct (span_digits s1) as [[|d ds] r']; [discriminate|]. simpl in *.
    intros [= <- <-]. split; [reflexivity | simpl; do 2 f_equal; exact Hs].
  - change (c1 :: s1 ++ rest) with ((c1 :: s1) ++ rest).
    rewrite (span_digits_app _ _ H). pose proof (span_digits_concat (c1 :: s1)) as Hs.
    destruct (span_digits (c1 :: s1)) as [[|d ds] r']; [discriminate|]. simpl in *.
    intros [= <- <-]. split; [reflexivity | simpl; f_equal; exact Hs].
Qed.

Lemma scan_number_app (s lit r rest : bytes) :
  follow_ok rest = true →
  scan_number s = Some (lit, r) →
  scan_number (s ++ rest) = Some (lit, r ++ rest) ∧ s = lit ++ r ∧
  ∃ c t, lit = c :: t ∧ (is_digit c || Ascii.eqb c "-") = true.
Proof.
  intros H. unfold scan_number.
  assert (Hgo : ∀ neg s1,
            (∀ c t, neg = c :: t → neg = [c] ∧ Ascii.eqb c "-" = true) →
            ('(i, s2) ← scan_int s1; '(f, s3) ← scan_frac s2;
             '(e, s4) ← scan_exp s3; Some (neg ++ i ++ f ++ e, s4))
            = Some (lit, r) →
            ('(i, s2) ← scan_int (s1 ++ rest); '(f, s3) ← scan_frac s2;
             '(e, s4) ← scan_exp s3; Some (neg ++ i ++ f ++ e, s4))
            = Some (lit, r ++ rest) ∧ neg ++ s1 = lit ++ r ∧
            ∃ c t, lit = c :: t ∧ (is_digit c || Ascii.eqb c "-") = true).
  { intros neg s1 Hneg.
    destruct (scan_int s1) as [[i s2]|] eqn:Hi; [|discriminate]. simpl.
    destruct (scan_frac s2) as [[f s3]|] eqn:Hf; [|discriminate]. simpl.
    destruct (scan_exp s3) as [[e s4]|] eqn:He; [|discriminate]. simpl.
    intros [= <- <-].
    destruct (scan_int_app _ _ _ _ H Hi) as (-> & -> & c & t & -> & Hc). simpl.
    destruct (scan_frac_app _ _ _ _ H Hf) as (-> & ->). simpl.
    destruct (scan_exp_app _ _ _ _ H He) as (-> & ->). simpl.
    split; [reflexivity|].
    split; [repeat (rewrite <- app_assoc || rewrite <- app_comm_cons); reflexivity|].
    destruct neg as [|c0 t0].
    - exists c, (t ++ f ++ e). split; [reflexivity|]. rewrite Hc. reflexivity.
    - destruct (Hneg c0 t0 eq_refl) as [[= ->] Hm].
      eexists c0, _. split; [reflexivity|]. rewrite Hm. apply orb_true_r. }
  destruct s as [|c s].
  { intros Hs. discriminate Hs. }
  cbn [app]. destruct (Ascii.eqb c "-") eqn:Hm.
  - intros Hs. destruct (Hgo [c] s) as (H1 & H2 & H3); [|exact Hs|auto].
    intros c0 t0 [= <- <-]. auto.
  - intros Hs. apply (Hgo [] (c :: s)); [discriminate | exact Hs].
Qed.

(** A text that is one number literal is read whole before anything that
    may follow a value. *)
Lemma is_number_literal (lit : bytes) : is_number lit = true → number_literal lit.
Proof.
  unfold is_number, number_literal. intros H.
  destruct (scan_number lit) as [[l [|c r]]|] eqn:Hs; try discriminate H.
  destruct (scan_number_app _ _ _ [] eq_refl Hs) as (_ & Hl & Hhead).
  rewrite List.app_nil_r in Hl. subst l. split; [exact Hhead|].
  intros rest Hrest. destruct (scan_number_app _ _ _ rest Hrest Hs) as (Hr & _).
  exact Hr.
Qed.

Lemma span_digits_uint (d : Decimal.uint) (rest : bytes) :
  follow_ok rest = true →
  span_digits (uint_bytes d ++ rest) = (uint_bytes d, rest).
Proof.
  intros H. induction d; simpl; [apply span_digits_end, H | ..];
    change (is_digit _) with true; cbv iota; rewrite IHd; reflexivity.
Qed.

Lemma to_uint_normal (p : positive) : Decimal.unorm (Pos.to_uint p) = Pos.to_uint p.
Proof.
  rewrite <- (Unsigned.to_of (Pos.to_uint p)), Unsigned.of_to. reflexivity.
Qed.

Lemma to_uint_no_leading_zero (p : positive) (d : Decimal.uint) :
  Pos.to_uint p ≠ Decimal.D0 d.
Proof.
  intros H. pose proof (to_uint_normal p) as Hn. rewrite H in Hn.
  rewrite unorm_D0 in Hn. destruct (Decimal.uint_eq_dec d Decimal.Nil) as [->|Hd].
  - apply (Unsigned.to_uint_nonzero p). exact H.
  - pose proof (nb_digits_unorm d Hd) as Hle. rewrite Hn in Hle. simpl in Hle. lia.
Qed.

Lemma scan_number_digits (neg : bool) (p : positive) (rest : bytes) :
  follow_ok rest = true →
  scan_number ((if neg then ["-"%char] else []) ++ uint_bytes (Pos.to_uint p) ++ rest)
  = Some ((if neg then ["-"%char] else []) ++ uint_bytes (Pos.to_uint p), rest).
Proof.
  intros H. pose proof (to_uint_no_leading_zero p) as Hz.
  pose proof (Unsigned.to_uint_nonnil p) as Hnil.
  destruct (Pos.to_uint p) as [|d|d|d|d|d|d|d|d|d|d];
    [congruence | destruct (Hz d eq_refl) | ..];
    destruct neg; unfold scan_number; simpl;
    change (is_digit _) with true; cbv iota;
    rewrite (span_digits_uint d rest H); simpl;
    rewrite (scan_frac_end rest H); simpl;
    rewrite (scan_exp_end rest H); simpl; rewrite List.app_nil_r; reflexivity.
Qed.

Lemma itoa_number_literal (z : Z) : number_literal (itoa z).
Proof.
  split.
  - destruct z as [|p|p]; simpl;
      [eexists _, _; split; reflexivity | | eexists _, _; split; reflexivity].
    pose proof (Unsigned.to_uint_nonnil p) as Hnil.
    destruct (Pos.to_uint p); [congruence | ..]; eexists _, _; split; reflexivity.
  - intros rest H. destruct z as [|p|p]; simpl.
    + unfold scan_number. simpl.
      rewrite (scan_frac_end rest H). simpl. rewrite (scan_exp_end rest H). reflexivity.
    + apply (scan_number_digits false p rest H).
    + apply (scan_number_digits true p rest H).
Qed.

Lemma parse_value_S (n : nat) (s : bytes) :
  parse_value (S n) s =
  match skip_space s with
  | [] => None
  | c :: r =>
      if Ascii.eqb c "n" then r' ← strip_prefix (bytes_of "ull") r; Some (JNull, r')
      else if Ascii.eqb c "t" then
        r' ← strip_prefix (bytes_of "rue") r; Some (JBool true, r')
      else if Ascii.eqb c "f" then
        r' ← strip_prefix (bytes_of "alse") r; Some (JBool false, r')
      else if Ascii.eqb c dquote then
        '(t, r') ← scan_string r; Some (JStr (string_of t), r')
      else if Ascii.eqb c "[" then
        match skip_space r with
        | c1 :: r1 =>
            if Ascii.eqb c1 "]" then Some (JArr [], r1)
            else
              '(v, r2) ← parse_value n r;
              '(vs, r3) ← parse_elems n r2;
              Some (JArr (v :: vs), r3)
        | [] => None
        end
      else if Ascii.eqb c "{" then
        match skip_space r with
        | c1 :: r1 =>
            if Ascii.eqb c1 "}" then Some (JObj [], r1)
            else
              '(kv, r2) ← parse_member (parse_value n) r;
              '(kvs, r3) ← parse_members n r2;
              Some (JObj (kv :: kvs), r3)
        | [] => None
        end
      else
        '(lit, r') ← scan_number (c :: r); Some (JNum lit, r')
  end.
Proof. reflexivity. Qed.

Lemma parse_elems_S (n : nat) (s : bytes) :
  parse_elems (S n) s =
  match skip_space s with
  | c :: r =>
      if Ascii.eqb c "]" then Some ([], r)
      else if Ascii.eqb c "," then
        '(v, r1) ← parse_value n r;
        '(vs, r2) ← parse_elems n r1;
        Some (v :: vs, r2)
      else None
  | [] => None
  end.
Proof. reflexivity. Qed.

Lemma parse_members_S (n : nat) (s : bytes) :
  parse_members (S n) s =
  match skip_space s with
  | c :: r =>
      if Ascii.eqb c "}" then Some ([], r)
      else if Ascii.eqb c "," then
        '(kv, r1) ← parse_member (parse_value n) r;
        '(kvs, r2) ← parse_members n r1;
        Some (kv :: kvs, r2)
      else None
  | [] => None
  end.
Proof. reflexivity. Qed.

Lemma parse_value_space (n : nat) (ws s : bytes) :
  all_space ws → parse_value n (ws ++ s) = parse_value n s.
Proof.
  intros H. destruct n; [reflexivity|].
  rewrite !parse_value_S, (skip_space_app _ _ H). reflexivity.
Qed.

Lemma parse_value_number (n : nat) (c : ascii) (t : bytes) :
  (is_digit c || Ascii.eqb c "-") = true →
  parse_value (S n) (c :: t) = '(lit, r') ← scan_number (c :: t); Some (JNum lit, r').
Proof.
  destruct c as [[] [] [] [] [] [] [] []]; intros H; try discriminate H; reflexivity.
Qed.

Lemma parse_value_string (n : nat) (s : string) (rest : bytes) :
  parse_value (S n) (quote s ++ rest) = Some (JStr (coerce s), rest).
Proof.
  rewrite parse_value_S. unfold quote. simpl.
  rewrite <- app_assoc. simpl. rewrite scan_string_escape. reflexivity.
Qed.

Lemma enc_tail_cons {A} (f : A → bytes) (sep close : bytes) (y : A) (l : list A) :
  enc_tail f sep close (y :: l) = ","%char :: sep ++ f y ++ enc_tail f sep close l.
Proof. reflexivity. Qed.

Lemma enc_arr_cons (nl : nat → bytes) (sp : bytes) (d : nat) (x : json) (xs : list json) :
  enc nl sp d (JArr (x :: xs)) =
  "["%char :: nl (S d) ++ enc nl sp (S d) x
    ++ enc_tail (enc nl sp (S d)) (nl (S d)) (nl d ++ ["]"%char]) xs.
Proof. reflexivity. Qed.

Lemma enc_obj_cons (nl : nat → bytes) (sp : bytes) (d : nat) (kv : string * json)
    (kvs : list (string * json)) :
  enc nl sp d (JObj (kv :: kvs)) =
  "{"%char :: nl (S d) ++ enc_member sp (enc nl sp (S d)) kv
    ++ enc_tail (enc_member sp (enc nl sp (S d))) (nl (S d)) (nl d ++ ["}"%char]) kvs.
Proof. reflexivity. Qed.

Lemma parse_value_array (n : nat) (r : bytes) :
  parse_value (S n) ("["%char :: r) =
  match skip_space r with
  | c1 :: r1 =>
      if Ascii.eqb c1 "]" then Some (JArr [], r1)
      else
        '(v, r2) ← parse_value n r;
        '(vs, r3) ← parse_elems n r2;
        Some (JArr (v :: vs), r3)
  | [] => None
  end.
Proof. reflexivity. Qed.

Lemma parse_value_object (n : nat) (r : bytes) :
  parse_value (S n) ("{"%char :: r) =
  match skip_space r with
  | c1 :: r1 =>
      if Ascii.eqb c1 "}" then Some (JObj [], r1)
      else
        '(kv, r2) ← parse_member (parse_value n) r;
        '(kvs, r3) ← parse_members n r2;
        Some (JObj (kv :: kvs), r3)
  | [] => None
  end.
Proof. reflexivity. Qed.

Lemma enc_member_head (sp : bytes) (f : json → bytes) (kv : string * json) (t : bytes) :
  ∃ t', enc_member sp f kv ++ t = dquote :: t'.
Proof. eexists. reflexivity. Qed.

Lemma skip_space_head (c : ascii) (t : bytes) :
  is_space c = false → skip_space (c :: t) = c :: t.
Proof. intros H. simpl. rewrite H. reflexivity. Qed.

#[local] Arguments enc_member : simpl never.
#[local] Arguments quote : simpl never.

Section RoundTrip.

Variable nl : nat → bytes.
Variable sp : bytes.
Hypothesis nl_space : ∀ d, all_space (nl d).
Hypothesis sp_space : all_space sp.

(** An encoded value starts with a byte that is not white space and does
    not close an array or an object. *)
Lemma enc_head (d : nat) (v : json) :
  wf v →
  ∃ c t, enc nl sp d v = c :: t ∧ is_space c = false ∧
         Ascii.eqb c "]" = false ∧ Ascii.eqb c "}" = false.
Proof.
  intros H. destruct H as [ | [] | lit [(c & t & -> & Hc) _] | s | [|x xs] _ | [|kv kvs] _];
    try (eexists _, _; repeat split; reflexivity).
  exists c, t. split; [reflexivity|].
  destruct c as [[] [] [] [] [] [] [] []]; try discriminate Hc; repeat split.
Qed.

Lemma follow_ok_close (d : nat) (c : ascii) (rest : bytes) :
  terminator c = true → follow_ok (nl d ++ c :: rest) = true.
Proof.
  intros Hc. pose proof (nl_space d) as H. unfold all_space in H.
  destruct (nl d) as [|c' t]; simpl in *; [exact Hc|].
  apply andb_true_iff in H as [H _]. unfold terminator. rewrite H. reflexivity.
Qed.

Lemma follow_ok_tail {A} (f : A → bytes) (d : nat) (c : ascii) (l : list A)
    (rest : bytes) :
  terminator c = true →
  follow_ok (enc_tail f (nl (S d)) (nl d ++ [c]) l ++ rest) = true.
Proof.
  intros Hc. destruct l as [|y l]; simpl.
  - rewrite <- app_assoc. apply follow_ok_close, Hc.
  - reflexivity.
Qed.

Lemma parse_elems_tail (d : nat) (xs : list json) :
  Forall (reads_back nl sp) xs →
  ∀ n rest,
    (length (enc_tail (enc nl sp (S d)) (nl (S d)) (nl d ++ ["]"%char]) xs) < n)%nat →
    follow_ok rest = true →
    parse_elems n
      (enc_tail (enc nl sp (S d)) (nl (S d)) (nl d ++ ["]"%char]) xs ++ rest)
    = Some (map coerce_json xs, rest).
Proof.
  induction 1 as [|y ys Hy _ IH]; intros n rest Hn Hrest; (destruct n as [|n]; [lia|]).
  - rewrite parse_elems_S. simpl.
    rewrite <- app_assoc, (skip_space_app _ _ (nl_space d)). reflexivity.
  - rewrite parse_elems_S. simpl in *.
    rewrite <- !app_assoc, (parse_value_space _ _ _ (nl_space (S d))).
    rewrite !length_app in Hn.
    rewrite Hy; [| lia | apply follow_ok_tail; reflexivity]. simpl.
    rewrite IH; [reflexivity | lia | exact Hrest].
Qed.

Lemma parse_member_space (pv : bytes → option (json * bytes)) (ws s : bytes) :
  all_space ws → parse_member pv (ws ++ s) = parse_member pv s.
Proof. intros H. unfold parse_member. rewrite (skip_space_app _ _ H). reflexivity. Qed.

Lemma parse_member_enc (n : nat) (d : nat) (kv : string * json) (rest : bytes) :
  (reads_back nl sp) kv.2 →
  (length (enc_member sp (enc nl sp d) kv) < n)%nat →
  follow_ok rest = true →
  parse_member (parse_value n) (enc_member sp (enc nl sp d) kv ++ rest)
  = Some ((coerce kv.1, coerce_json kv.2), rest).
Proof.
  intros Hkv Hn Hrest. destruct kv as [k v]. unfold enc_member, parse_member, quote in *.
  simpl in *.
  rewrite <- !app_assoc. simpl.
  rewrite scan_string_escape. simpl.
  rewrite <- !app_assoc, (parse_value_space _ _ _ sp_space).
  rewrite !length_app in Hn. simpl in Hn. rewrite !length_app in Hn.
  rewrite Hkv; [| lia | exact Hrest]. reflexivity.
Qed.

Lemma parse_members_tail (d : nat) (kvs : list (string * json)) :
  Forall (λ kv, (reads_back nl sp) kv.2) kvs →
  ∀ n rest,
    (length (enc_tail (enc_member sp (enc nl sp (S d))) (nl (S d))
               (nl d ++ ["}"%char]) kvs) < n)%nat →
    follow_ok rest = true →
    parse_members n
      (enc_tail (enc_member sp (enc nl sp (S d))) (nl (S d)) (nl d ++ ["}"%char]) kvs
         ++ rest)
    = Some (map (λ kv, (coerce kv.1, coerce_json kv.2)) kvs, rest).
Proof.
  induction 1 as [|y ys Hy _ IH]; intros n rest Hn Hrest; (destruct n as [|n]; [lia|]).
  - rewrite parse_members_S. simpl.
    rewrite <- app_assoc, (skip_space_app _ _ (nl_space d)). reflexivity.
  - rewrite parse_members_S. rewrite enc_tail_cons in *.
    rewrite <- app_comm_cons, skip_space_head by reflexivity.
    change (Ascii.eqb "," "}") with false. change (Ascii.eqb "," ",") with true.
    cbv iota.
    rewrite <- !app_assoc, (parse_member_space _ _ _ (nl_space (S d))).
    cbn [length] in Hn. rewrite !length_app in Hn.
    rewrite parse_member_enc; [| exact Hy | lia | apply follow_ok_tail; reflexivity].
    simpl. rewrite IH; [reflexivity | lia | exact Hrest].
Qed.

(** Every well-formed value is read back from what the encoder writes for
    it, whatever white space the encoder puts between the items. *)
Lemma parse_value_enc (v : json) : wf v → (reads_back nl sp) v.
Proof.
  induction v as [ | b | lit | s | elems IH | members IH] using json_ind;
    intros Hwf d n rest Hn Hrest; (destruct n as [|n]; [lia|]).
  - reflexivity.
  - destruct b; reflexivity.
  - inversion Hwf as [ | | ? [(c & t & -> & Hc) Hlit] | | | ]; subst.
    change (enc nl sp d (JNum (c :: t)) ++ rest) with (c :: (t ++ rest)).
    rewrite (parse_value_number _ _ _ Hc).
    change (c :: t ++ rest) with ((c :: t) ++ rest). rewrite (Hlit rest Hrest).
    reflexivity.
  - apply parse_value_string.
  - inversion Hwf as [ | | | | ? Hall | ]; subst.
    destruct elems as [|x xs]; [reflexivity|].
    apply Forall_cons in IH as [IHx IHxs]. apply Forall_cons in Hall as [Hx Hxs].
    rewrite enc_arr_cons in *. rewrite <- app_comm_cons, parse_value_array.
    rewrite <- !app_assoc, (skip_space_app _ _ (nl_space (S d))).
    destruct (enc_head (S d) x Hx) as (c & t & Hc & Hsp & Hcl & _).
    rewrite Hc, <- app_comm_cons, (skip_space_head _ _ Hsp), Hcl, app_comm_cons, <- Hc.
    rewrite (parse_value_space _ _ _ (nl_space (S d))).
    cbn [length] in Hn. rewrite !length_app in Hn.
    rewrite (IHx Hx); [| lia | apply follow_ok_tail; reflexivity]. simpl.
    rewrite parse_elems_tail; [reflexivity | | lia | exact Hrest].
    apply Forall_impl with (P := λ v, wf v ∧ (wf v → (reads_back nl sp) v)).
    + apply Forall_and. split; assumption.
    + intros v [? ?]; auto.
  - inversion Hwf as [ | | | | | ? Hall]; subst.
    destruct members as [|kv kvs]; [reflexivity|].
    apply Forall_cons in IH as [IHx IHxs]. apply Forall_cons in Hall as [Hx Hxs].
    rewrite enc_obj_cons in *. rewrite <- app_comm_cons, parse_value_object.
    rewrite <- !app_assoc, (skip_space_app _ _ (nl_space (S d))).
    match goal with |- context [skip_space (?m ++ ?t)] =>
      destruct (enc_member_head sp (enc nl sp (S d)) kv t) as (t' & Hm) end.
    rewrite Hm, (skip_space_head dquote t' eq_refl).
    change (Ascii.eqb dquote "}") with false. cbv iota. rewrite <- Hm.
    rewrite (parse_member_space _ _ _ (nl_space (S d))).
    cbn [length] in Hn. rewrite !length_app in Hn.
    rewrite parse_member_enc; [| exact (IHx Hx) | lia | apply follow_ok_tail; reflexivity].
    simpl. rewrite parse_members_tail; [reflexivity | | lia | exact Hrest].
    apply Forall_impl with (P := λ kv, wf kv.2 ∧ (wf kv.2 → (reads_back nl sp) kv.2)).
    + apply Forall_and. split; assumption.
    + intros v [? ?]; auto.
Qed.

End RoundTrip.

(** A whole text the encoder wrote is read back as its value. *)
Lemma parse_enc (nl : nat → bytes) (sp : bytes) (v : json) :
  (∀ d, all_space (nl d)) → all_space sp → wf v →
  parse (enc nl sp 0 v) = Some (coerce_json v).
Proof.
  intros Hnl Hsp Hwf. unfold parse.
  pose proof (parse_value_enc nl sp Hnl Hsp v Hwf 0
                (S (length (enc nl sp 0 v))) [] (Nat.lt_succ_diag_r _) eq_refl) as H.
  rewrite List.app_nil_r in H. rewrite H. reflexivity.
Qed.

Lemma parse_compact (v : json) : wf v → parse (compact v) = Some (coerce_json v).
Proof. apply parse_enc; intros; reflexivity. Qed.

Lemma all_space_newline (prefix indent : string) (d : nat) :
  all_space (bytes_of prefix) → all_space (bytes_of indent) →
  all_space (newline prefix indent d).
Proof.
  unfold all_space, newline. intros Hp Hi. simpl.
  rewrite forallb_app, Hp. simpl.
  induction d as [|d IH]; [reflexivity|]. simpl. rewrite forallb_app, Hi, IH. reflexivity.
Qed.

Lemma parse_indented (prefix indent : string) (v : json) :
  all_space (bytes_of prefix) → all_space (bytes_of indent) → wf v →
  parse (indented prefix indent v) = Some (coerce_json v).
Proof.
  intros Hp Hi. apply parse_enc; [|reflexivity].
  intros d. apply all_space_newline; assumption.
Qed.

(** Induction on Go values. *)
Lemma any_ind (P : any → Prop) :
  P ANil →
  (∀ b, P (ABool b)) →
  (∀ z, P (AInt z)) →
  (∀ f, P (AFloat f)) →
  (∀ s, P (AString s)) →
  (∀ l, Forall P l → P (ASlice l)) →
  (∀ m, Forall (λ kv, P kv.2) m → P (AMap m)) →
  P AUnsupported →
  ∀ a, P a.
Proof.
  intros Hnil Hbool Hint Hfloat Hstr Hslice Hmap Hun.
  fix IH 1. intros [ | b | z | f | s | l | m | ].
  - apply Hnil.
  - apply Hbool.
  - apply Hint.
  - apply Hfloat.
  - apply Hstr.
  - apply Hslice. induction l as [|x xs IHxs]; constructor; [apply IH | exact IHxs].
  - apply Hmap. induction m as [|[k x] xs IHxs]; constructor; [apply IH | exact IHxs].
  - apply Hun.
Qed.

Lemma mapM_wf {A} (f : A → option json) (l : list A) (js : list json) :
  Forall (λ a, ∀ j, f a = Some j → wf j) l →
  mapM f l = Some js → Forall wf js.
Proof.
  intros Hall H. apply mapM_Some in H.
  induction H as [|a j l js Hj _ IH]; [constructor|].
  apply Forall_cons in Hall as [Ha Hl]. constructor; auto.
Qed.

Lemma members_wf (m : list (string * any)) (kvs : list (string * json)) :
  Forall (λ kv, ∀ j, to_json kv.2 = Some j → wf j) m →
  members_json m = Some kvs → Forall (λ kv, wf kv.2) kvs.
Proof.
  unfold members_json. intros Hall H. apply mapM_Some in H.
  induction H as [|a j l js Hj _ IH]; [constructor|].
  apply Forall_cons in Hall as [Ha Hl]. constructor; [|auto].
  destruct (to_json a.2) as [v|] eqn:Hv; [|discriminate].
  injection Hj as <-. simpl. auto.
Qed.

Lemma to_json_wf (a : any) (j : json) : to_json a = Some j → wf j.
Proof.
  revert j. induction a as [ | b | z | f | s | l IH | m IH | ] using any_ind;
    intros j H; simpl in H.
  - injection H as <-. constructor.
  - injection H as <-. constructor.
  - injection H as <-. constructor. apply itoa_number_literal.
  - injection H as <-. constructor. apply is_number_literal, float_text_number.
  - injection H as <-. constructor.
  - destruct (mapM to_json l) as [js|] eqn:Hjs; [|discriminate].
    injection H as <-. constructor. eapply mapM_wf; eassumption.
  - destruct (mapM _ m) as [kvs|] eqn:Hkvs; [|discriminate].
    injection H as <-. constructor. eapply members_wf; eassumption.
  - discriminate.
Qed.

Lemma SourceLocation_json_wf (l : SourceLocation) : wf (SourceLocation_json l).
Proof.
  constructor. repeat constructor; apply itoa_number_literal.
Qed.

Lemma FormattedError_json_wf (e : FormattedError) (j : json) :
  FormattedError_json e = Some j → wf j.
Proof.
  unfold FormattedError_json. intros H.
  destruct (mapM to_json (Path e)) as [path|] eqn:Hp; [|discriminate]. simpl in H.
  destruct (members_json (Extensions e)) as [ext|] eqn:Hx; [|discriminate].
  simpl in H. injection H as <-.
  assert (Hpath : Forall wf path).
  { eapply mapM_wf; [|eassumption]. apply Forall_forall. intros a _ j. apply to_json_wf. }
  assert (Hext : Forall (λ kv, wf kv.2) ext).
  { eapply members_wf; [|eassumption]. apply Forall_forall. intros a _ j. apply to_json_wf. }
  constructor. repeat apply Forall_cons_2; simpl.
  - constructor.
  - constructor. apply Forall_fmap, Forall_forall. intros l _. apply SourceLocation_json_wf.
  - apply Forall_app. split.
    + destruct path; simpl; [constructor|].
      constructor; [constructor; exact Hpath | constructor].
    + destruct ext; simpl; [constructor|].
      constructor; [constructor; exact Hext | constructor].
Qed.

Lemma Result_json_wf (r : Result) (j : json) : Result_json r = Some j → wf j.
Proof.
  unfold Result_json. intros H.
  destruct (to_json (Data r)) as [d|] eqn:Hd; [|discriminate]. simpl in H.
  destruct (mapM FormattedError_json (Errors r)) as [errs|] eqn:He; [|discriminate].
  simpl in H.
  destruct (members_json (Result_Extensions r)) as [ext|] eqn:Hx; [|discriminate].
  simpl in H. injection H as <-.
  assert (Herrs : Forall wf errs).
  { eapply mapM_wf; [|eassumption]. apply Forall_forall.
    intros a _ j. apply FormattedError_json_wf. }
  assert (Hext : Forall (λ kv, wf kv.2) ext).
  { eapply members_wf; [|eassumption]. apply Forall_forall. intros a _ j. apply to_json_wf. }
  constructor. apply Forall_cons_2; simpl; [eapply to_json_wf; eassumption|].
  apply Forall_app. split.
  - destruct errs; simpl; [constructor|].
    constructor; [constructor; exact Herrs | constructor].
  - destruct ext; simpl; [constructor|].
    constructor; [constructor; exact Hext | constructor].
Qed.

(** ** The resolution of request options *)

Section Resolution.

Context {env : Environment}.

Lemma eqb_empty_false (s : string) : s ≠ "" → String.eqb s "" = false.
Proof. intros H. apply String.eqb_neq. exact H. Qed.

(** What [getFromForm] returns for values with a [query]. *)
Lemma getFromForm_some (values : Values) :
  Values_Get values "query" ≠ "" →
  getFromForm values =
    Some {| Query := Values_Get values "query";
            Variables := (Unmarshal_map (bytes_of (Values_Get values "variables")) ∅).1;
            OperationName := Values_Get values "operationName";
            File := ∅ |}.
Proof.
  intros H. unfold getFromForm. rewrite (eqb_empty_false _ H). simpl.
  destruct (Unmarshal_map _ _) as [variables e]. reflexivity.
Qed.

Lemma getFromForm_none (values : Values) :
  Values_Get values "query" = "" → getFromForm values = None.
Proof. intros H. unfold getFromForm. rewrite H. reflexivity. Qed.

Lemma getFromMultipartForm_some (form : Form) :
  Values_Get (Value form) "query" ≠ "" →
  getFromMultipartForm form =
    Some {| Query := Values_Get (Value form) "query";
            Variables :=
              (Unmarshal_map (bytes_of (Values_Get (Value form) "variables")) ∅).1;
            OperationName := Values_Get (Value form) "operationName";
            File := Form_File form |}.
Proof.
  intros H. unfold getFromMultipartForm. rewrite (eqb_empty_false _ H). simpl.
  destruct (Unmarshal_map _ _) as [variables e]. reflexivity.
Qed.

(** A text that is not valid JSON leaves the map it is read into as it was. *)
Lemma Unmarshal_map_invalid (data : bytes) (m : Variables_t) :
  Valid data = false → Unmarshal_map data m = (m, Some SyntaxError).
Proof.
  unfold Valid, Unmarshal_map. intros H.
  destruct (decode data) as [j|]; [|reflexivity].
  apply bool_decide_eq_false in H. destruct H. eauto.
Qed.

(** The first token of a content type with parameters. *)
Lemma Split_graphql_params (params : string) :
  hd "" (Split (ContentTypeGraphQL +:+ ";" +:+ params) ";") = ContentTypeGraphQL.
Proof. reflexivity. Qed.

(** C1.  When the query string of the URL has a [query] parameter that is
    not empty, [NewRequestOptions] returns that value as the query, with
    the operation name and the decoded variables of the same query string
    and no files, whatever the method, the headers and the body are. *)
Theorem query_string_precedence
    (query : Values) (method : string) (header : Values) (body : option Reader) :
  Values_Get query "query" ≠ "" →
  NewRequestOptions
    {| Method := method; URL_Query := query; Header := header; Body := body |} =
    {| Query := Values_Get query "query";
       Variables := (Unmarshal_map (bytes_of (Values_Get query "variables")) ∅).1;
       OperationName := Values_Get query "operationName";
       File := ∅ |}.
Proof.
  intros H. unfold NewRequestOptions. simpl.
  rewrite (getFromForm_some _ H). reflexivity.
Qed.

(** C6.  For a POST whose content type is [application/graphql], with or
    without parameters after a semicolon, and whose URL gives no query,
    the options have the whole body as the query, no variables, no
    operation name and no files. *)
Theorem graphql_body_is_query (r : Request) (body : bytes) :
  Method r = "POST" →
  Values_Get (URL_Query r) "query" = "" →
  (Values_Get (Header r) "Content-Type" = "application/graphql" ∨
   ∃ params, Values_Get (Header r) "Content-Type" = "application/graphql;" +:+ params) →
  raw_body r = Some body →
  NewRequestOptions r =
    {| Query := string_of body; Variables := ∅; OperationName := ""; File := ∅ |}.
Proof.
  intros Hm Hq Hct Hb. unfold NewRequestOptions.
  rewrite (getFromForm_none _ Hq), Hm. simpl.
  unfold raw_body in Hb. destruct (Body r) as [b|].
  - assert (Htok : hd "" (Split (Values_Get (Header r) "Content-Type") ";")
                   = ContentTypeGraphQL).
    { destruct Hct as [-> | [params ->]]; [reflexivity|].
      apply (Split_graphql_params params). }
    rewrite Htok. simpl. unfold ReadAll.
    destruct (failure b); [discriminate|]. congruence.
  - injection Hb as <-. reflexivity.
Qed.

(** The options of a request that posts form data, when the URL gives no
    query of its own. *)
Lemma NewRequestOptions_posted (r : Request) (b : Reader) (values : Values) :
  Method r = "POST" →
  Values_Get (URL_Query r) "query" = "" →
  Body r = Some b →
  posted_values r = Some values →
  Values_Get values "query" ≠ "" →
  Query (NewRequestOptions r) = Values_Get values "query" ∧
  Variables (NewRequestOptions r)
    = (Unmarshal_map (bytes_of (Values_Get values "variables")) ∅).1 ∧
  OperationName (NewRequestOptions r) = Values_Get values "operationName".
Proof.
  intros Hm Hq Hb Hv Hquery. unfold NewRequestOptions.
  rewrite (getFromForm_none _ Hq), Hm, Hb. simpl.
  unfold posted_values in Hv. fold (content_type r).
  destruct (String.eqb (content_type r) ContentTypeGraphQL) eqn:Hg.
  { apply String.eqb_eq in Hg. rewrite Hg in Hv. discriminate. }
  destruct (String.eqb (content_type r) ContentTypeFormURLEncoded).
  - destruct (ParseForm r) as [v|]; [|discriminate]. injection Hv as ->.
    rewrite (getFromForm_some _ Hquery). auto.
  - destruct (String.eqb (content_type r) ContentTypeMultipartFormData); [|discriminate].
    destruct (ParseMultipartForm r MaxUploadMemorySize) as [form|]; [|discriminate].
    injection Hv as <-.
    rewrite (getFromMultipartForm_some _ Hquery). auto.
Qed.

(** C7.  For form values, url-encoded or multipart, with a [query] field
    that is not empty and a [variables] field that is not valid JSON,
    both [getFromForm] and [getFromMultipartForm] return options, with
    that query and an empty variables map; and these are the options of a
    POST that carries the values, when its URL gives no query of its own. *)
Theorem malformed_variables_give_empty_map
    (values : Values) (files : gmap string (list FileHeader)) :
  Values_Get values "query" ≠ "" →
  Valid (bytes_of (Values_Get values "variables")) = false →
  getFromForm values =
    Some {| Query := Values_Get values "query";
            Variables := ∅;
            OperationName := Values_Get values "operationName";
            File := ∅ |} ∧
  getFromMultipartForm {| Value := values; Form_File := files |} =
    Some {| Query := Values_Get values "query";
            Variables := ∅;
            OperationName := Values_Get values "operationName";
            File := files |} ∧
  (∀ r b,
     Method r = "POST" →
     Values_Get (URL_Query r) "query" = "" →
     Body r = Some b →
     posted_values r = Some values →
     Query (NewRequestOptions r) = Values_Get values "query" ∧
     Variables (NewRequestOptions r) = ∅ ∧
     OperationName (NewRequestOptions r) = Values_Get values "operationName").
Proof.
  intros Hquery Hbad. split; [|split].
  - rewrite (getFromForm_some _ Hquery), (Unmarshal_map_invalid _ _ Hbad). reflexivity.
  - rewrite (getFromMultipartForm_some {| Value := values; Form_File := files |} Hquery).
    simpl. rewrite (Unmarshal_map_invalid _ _ Hbad). reflexivity.
  - intros r b Hm Hq Hb Hv.
    destruct (NewRequestOptions_posted r b values Hm Hq Hb Hv Hquery) as (H1 & H2 & H3).
    rewrite (Unmarshal_map_invalid _ _ Hbad) in H2. auto.
Qed.

Lemma Unmarshal_opts_invalid (data : bytes) (o : RequestOptions) :
  Valid data = false → Unmarshal_opts data o = (o, Some SyntaxError).
Proof.
  unfold Valid, Unmarshal_opts. intros H.
  destruct (decode data) as [j|]; [|reflexivity].
  apply bool_decide_eq_false in H. destruct H. eauto.
Qed.

(** What the handler returns for a body it reads as JSON: the record as
    [json.Unmarshal] leaves it, whatever error it returns. *)
Lemma NewRequestOptions_json (r : Request) (b : Reader) :
  Values_Get (URL_Query r) "query" = "" →
  Method r = "POST" →
  read_as_json r b →
  NewRequestOptions r = (Unmarshal_opts (data b) zero_RequestOptions).1.
Proof.
  intros Hq Hm (Hb & He & Hg & Hf1 & Hf2). unfold NewRequestOptions.
  rewrite (getFromForm_none _ Hq), Hm, Hb. simpl. fold (content_type r).
  rewrite Hg, Hf1, Hf2. unfold ReadAll. rewrite He.
  destruct (Unmarshal_opts _ _) as [opts e]. reflexivity.
Qed.

(** C2, amended.  [NewRequestOptions] is a total function: it returns one
    record for every request and has no error to return.  When the URL
    gives no query and the parsing of a POST fails, by a body that cannot
    be read, form data that cannot be parsed, a multipart form that cannot
    be parsed, or a JSON body that is not a valid JSON text, the record is
    the zero record.  For a body read as JSON the record is the one the
    decoder leaves behind, with or without an error: when a member of a
    valid text does not fit its field, the fields that did decode stay. *)
Theorem parse_errors_are_swallowed (r : Request) :
  Values_Get (URL_Query r) "query" = "" →
  Method r = "POST" →
  (parse_failure r → NewRequestOptions r = zero_RequestOptions) ∧
  (∀ b, read_as_json r b →
        NewRequestOptions r = (Unmarshal_opts (data b) zero_RequestOptions).1).
Proof.
  intros Hq Hm. split; [|intros b; apply NewRequestOptions_json; assumption].
  intros [b e Hb He Hf1 Hf2 | b e Hb Hct Hp | b e Hb Hct Hp | b Hj Hbad].
  - unfold NewRequestOptions.
    rewrite (getFromForm_none _ Hq), Hm, Hb. simpl. fold (content_type r).
    rewrite Hf1, Hf2. unfold ReadAll. rewrite He.
    destruct (String.eqb _ ContentTypeGraphQL); reflexivity.
  - unfold NewRequestOptions.
    rewrite (getFromForm_none _ Hq), Hm, Hb. simpl. fold (content_type r).
    rewrite Hct, Hp. reflexivity.
  - unfold NewRequestOptions.
    rewrite (getFromForm_none _ Hq), Hm, Hb. simpl. fold (content_type r).
    rewrite Hct, Hp. reflexivity.
  - rewrite (NewRequestOptions_json r b Hq Hm Hj), (Unmarshal_opts_invalid _ _ Hbad).
    reflexivity.
Qed.

End Resolution.

(** ** Execution and rendering *)

Section Serving.

Context {env : Environment}.

Lemma console_condition (h : Handler) (r : Request) :
  graphiql h &&
    (negb (Values_Has (URL_Query r) "raw")
     && negb (Contains (Values_Get (Header r) "Accept") "application/json")
     && Contains (Values_Get (Header r) "Accept") "text/html") = true
  ↔ wants_console h r.
Proof.
  unfold wants_console, Values_Has.
  destruct (graphiql h), (URL_Query r !! "raw"),
    (Contains _ "application/json"), (Contains _ "text/html");
    simpl; split; intros; try discriminate; try tauto; destruct_and?; discriminate.
Qed.

Lemma console_condition_false (h : Handler) (r : Request) :
  ¬ wants_console h r →
  graphiql h &&
    (negb (Values_Has (URL_Query r) "raw")
     && negb (Contains (Values_Get (Header r) "Accept") "application/json")
     && Contains (Values_Get (Header r) "Accept") "text/html") = false.
Proof.
  intros H. apply not_true_is_false. intros Hc. apply H, console_condition, Hc.
Qed.

(** The renderer at an early exit, and past the two early exits. *)
Lemma renderGraphiQL_early (params : Params_t) (w : World) (err : error) :
  early_exit params = Some err →
  renderGraphiQL params w = emit (EvHttpError (Error err) StatusInternalServerError) w.
Proof.
  unfold early_exit, renderGraphiQL.
  destruct (template_Parse graphiqlTemplate); [intros [= ->]; reflexivity|].
  destruct (MarshalIndent_map _ _ _) as [vbuf [verr|]]; simpl; [|discriminate].
  intros [= ->]. reflexivity.
Qed.

Lemma renderGraphiQL_late (params : Params_t) (w : World) :
  early_exit params = None →
  renderGraphiQL params w =
    if negb (String.eqb (RequestString params) "") then
      match (MarshalIndent (graphql_Do params (engine w)).1 "" "  ").2 with
      | Some err =>
          {| trace := trace w ++ [EvDo params;
                                  EvHttpError (Error err) StatusInternalServerError];
             engine := (graphql_Do params (engine w)).2;
             Title := Title w |}
      | None =>
          {| trace := trace w ++ EvDo params :: console_page (Title w);
             engine := (graphql_Do params (engine w)).2;
             Title := Title w |}
      end
    else
      {| trace := trace w ++ console_page (Title w);
         engine := engine w;
         Title := Title w |}.
Proof.
  unfold early_exit, renderGraphiQL, Do, console_page.
  destruct (template_Parse graphiqlTemplate); [discriminate|].
  destruct (MarshalIndent_map _ _ _) as [vbuf [verr|]]; simpl; [discriminate|].
  intros _. destruct (negb _).
  - destruct (graphql_Do params (engine w)) as [result eng]. simpl.
    destruct (MarshalIndent result "" "  ") as [buff [err|]]; simpl.
    + unfold emit. simpl. rewrite <- app_assoc. reflexivity.
    + destruct (template_Execute _ _); unfold emit; simpl;
        rewrite <- !app_assoc; reflexivity.
  - destruct (template_Execute _ _); unfold emit; simpl;
      rewrite <- ?app_assoc; reflexivity.
Qed.




(** The handler on its JSON path, call by call. *)
Lemma ContextHandler_json (h : Handler) (ctx : Context_t) (r : Request) (w : World)
    (schema : Schema_t) :
  Schema h = Some schema →
  ¬ wants_console h r →
  let params := request_params h schema ctx r in
  let result := format_errors h (graphql_Do params (engine w)).1 in
  let buff := response_body h result in
  ContextHandler h ctx r w =
    Returns
      {| trace :=
           trace w ++
             [EvDo params;
              EvHeaderAdd "Content-Type" "application/json; charset=utf-8";
              EvWriteHeader 200;
              EvWrite buff]
             ++ (if resultCallbackFn h then [EvResultCallback params result buff] else []);
         engine := (graphql_Do params (engine w)).2;
         Title := Title w |}.
Proof.
  intros Hs Hn. simpl. unfold ContextHandler, response_body. rewrite Hs.
  fold (request_params h schema ctx r). unfold Do.
  destruct (graphql_Do _ (engine w)) as [result eng]. simpl.
  rewrite (console_condition_false _ _ Hn).
  destruct (pretty h), (resultCallbackFn h);
    [destruct (MarshalIndent _ _ _) as [buff e] | destruct (MarshalIndent _ _ _) as [buff e]
    | destruct (Marshal _) as [buff e] | destruct (Marshal _) as [buff e]];
    unfold emit; simpl; rewrite <- !app_assoc; reflexivity.
Qed.



(** C5.  With a formatter configured, a result with N reported errors,
    N at least one, gets as its errors the N values of the formatter at
    the original errors of the reported ones, in their order, and nothing
    else of the result changes; on the JSON path this is the result that
    is written and given to the callback. *)
Theorem formatter_maps_every_error (h : Handler) (ctx : Context_t) (r : Request)
    (w : World) (schema : Schema_t) (f : option error → FormattedError) :
  Schema h = Some schema →
  formatErrorFn h = Some f →
  let params := request_params h schema ctx r in
  let reported := (graphql_Do params (engine w)).1 in
  (0 < length (Errors reported))%nat →
  let result := format_errors h reported in
  Errors result = (λ e, f (OriginalError e)) <$> Errors reported ∧
  length (Errors result) = length (Errors reported) ∧
  (∀ i e, Errors reported !! i = Some e →
          Errors result !! i = Some (f (OriginalError e))) ∧
  Data result = Data reported ∧
  Result_Extensions result = Result_Extensions reported ∧
  (¬ wants_console h r →
   ∃ w', ContextHandler h ctx r w = Returns w' ∧
         EvWrite (response_body h result) ∈ trace w' ∧
         (resultCallbackFn h = true →
          EvResultCallback params result (response_body h result) ∈ trace w')).
Proof.
  intros Hs Hf params reported HN result.
  assert (He : Errors result = (λ e, f (OriginalError e)) <$> Errors reported).
  { unfold result, format_errors. rewrite Hf.
    apply Nat.ltb_lt in HN. rewrite HN. reflexivity. }
  split; [exact He|]. split; [rewrite He; apply length_fmap|].
  split. { intros i e Hi. rewrite He, list_lookup_fmap, Hi. reflexivity. }
  assert (Hd : Data result = Data reported ∧
               Result_Extensions result = Result_Extensions reported).
  { unfold result, format_errors. rewrite Hf.
    destruct (0 <? length (Errors reported))%nat; split; reflexivity. }
  destruct Hd as [Hd Hx]. split; [exact Hd|]. split; [exact Hx|].
  intros Hn. eexists. split; [apply (ContextHandler_json h ctx r w schema Hs Hn)|].
  fold params reported result. simpl. split.
  - apply elem_of_app. right. repeat constructor.
  - intros ->. apply elem_of_app. right. repeat constructor.
Qed.

(** C9.  [New] panics exactly when the configuration it works with has no
    schema, which includes the default configuration taken for a nil one;
    with a schema it returns a handler made of the configuration. *)
Theorem New_panics_iff_no_schema (p : option Config) (title : string) :
  (New p title = Panics "undefined GraphQL schema" ↔
   match p with None => True | Some c => Config_Schema c = None end) ∧
  (∀ c schema, p = Some c → Config_Schema c = Some schema →
     ∃ title',
       New p title =
         Returns ({| Schema := Some schema;
                     pretty := Pretty c;
                     graphiql := GraphiQL c;
                     rootObjectFn := Config_RootObjectFn c;
                     resultCallbackFn := ResultCallbackFn c;
                     formatErrorFn := FormatErrorFn c |}, title')).
Proof.
  split.
  - unfold New. destruct p as [c|]; simpl.
    + destruct (Config_Schema c); split; intros; try discriminate; reflexivity.
    + split; intros; reflexivity.
  - intros c schema -> Hc. unfold New. rewrite Hc. eexists. reflexivity.
Qed.


Lemma wants_console_with_pretty (b : bool) (h : Handler) (r : Request) :
  wants_console (with_pretty b h) r ↔ wants_console h r.
Proof. reflexivity. Qed.

Lemma tab_is_space : all_space (bytes_of (String "009" "")).
Proof. reflexivity. Qed.

(** Coercing the strings of a value leaves its nesting as it is. *)
Lemma nesting_coerce_json (v : json) : nesting (coerce_json v) = nesting v.
Proof.
  induction v as [ | b | lit | s | elems IH | members IH] using json_ind;
    try reflexivity; cbn [coerce_json nesting]; f_equal.
  - induction IH as [|x xs Hx _ IHxs]; [reflexivity|].
    cbn [map foldr]. rewrite Hx, IHxs. reflexivity.
  - induction IH as [|kv kvs Hkv _ IHkvs]; [reflexivity|].
    cbn [map foldr]. cbn [snd]. rewrite Hkv, IHkvs. reflexivity.
Qed.

(** The library reads back what the encoder wrote for a value that is not
    nested too deep. *)
Lemma decode_enc (text : bytes) (v : json) :
  parse text = Some (coerce_json v) →
  (nesting v <= maxNestingDepth)%N →
  decode text = Some (coerce_json v).
Proof.
  intros Hp Hd. unfold decode. rewrite Hp. simpl.
  rewrite nesting_coerce_json. apply N.leb_le in Hd. rewrite Hd. reflexivity.
Qed.

(** C8, amended.  For a result that has a JSON form, the handler with
    [pretty] off writes the compact text of that value and with [pretty]
    on its indented text, and both texts are valid JSON that decode to
    one value: the value of the result, with every byte of its strings
    that is not UTF-8 replaced by U+FFFD.  The decoder of the library
    itself reads that value from both texts when the result is nested no
    deeper than its limit.  For a result that has no JSON form the
    handler writes no bytes, with either setting. *)
Theorem pretty_changes_layout_only (h : Handler) (ctx : Context_t) (r : Request)
    (w : World) (schema : Schema_t) :
  Schema h = Some schema →
  ¬ wants_console h r →
  let params := request_params h schema ctx r in
  let result := format_errors h (graphql_Do params (engine w)).1 in
  (∀ j, Result_json result = Some j →
     written_by (ContextHandler (with_pretty false h) ctx r w)
       = Some (written w ++ compact j) ∧
     written_by (ContextHandler (with_pretty true h) ctx r w)
       = Some (written w ++ indented "" (String "009" "") j) ∧
     parse (compact j) = Some (coerce_json j) ∧
     parse (indented "" (String "009" "") j) = Some (coerce_json j) ∧
     ((nesting j <= maxNestingDepth)%N →
      decode (compact j) = Some (coerce_json j) ∧
      decode (indented "" (String "009" "") j) = Some (coerce_json j))) ∧
  (Result_json result = None →
     ∀ b, written_by (ContextHandler (with_pretty b h) ctx r w) = Some (written w)).
Proof.
  intros Hs Hn params result.
  assert (Hrun : ∀ b, written_by (ContextHandler (with_pretty b h) ctx r w)
                      = Some (written w ++ response_body (with_pretty b h) result)).
  { intros b.
    rewrite (ContextHandler_json (with_pretty b h) ctx r w schema Hs
               (proj2 (not_iff_compat (wants_console_with_pretty b h r)) Hn)).
    unfold written_by, written. simpl.
    rewrite flat_map_app. simpl.
    destruct (resultCallbackFn h); simpl; rewrite ?List.app_nil_r; reflexivity. }
  split.
  - intros j Hj. rewrite !Hrun.
    unfold response_body, Marshal, MarshalIndent. simpl. rewrite Hj. simpl.
    pose proof (Result_json_wf _ _ Hj) as Hwf.
    pose proof (parse_compact j Hwf) as Hc.
    pose proof (parse_indented "" (String "009" "") j eq_refl tab_is_space Hwf) as Hi.
    split; [reflexivity|]. split; [reflexivity|]. split; [exact Hc|].
    split; [exact Hi|]. intros Hd. split; apply decode_enc; assumption.
  - intros Hnone b. rewrite Hrun.
    unfold response_body, Marshal, MarshalIndent. rewrite Hnone.
    destruct b; simpl; rewrite List.app_nil_r; reflexivity.
Qed.

End Serving.

(** * The properties at the sample requests *)

Lemma query_string_precedence_witness :
  Values_Get (URL_Query sample_delete) "query" ≠ "" ∧
  @NewRequestOptions sample_env sample_delete =
    {| Query := Values_Get (URL_Query sample_delete) "query";
       Variables :=
         (Unmarshal_map (bytes_of (Values_Get (URL_Query sample_delete) "variables")) ∅).1;
       OperationName := Values_Get (URL_Query sample_delete) "operationName";
       File := ∅ |}.
Proof.
  assert (H : Values_Get (URL_Query sample_delete) "query" ≠ "")
    by (vm_compute; discriminate).
  split; [exact H|].
  exact (@query_string_precedence sample_env (URL_Query sample_delete)
           (Method sample_delete) (Header sample_delete) (Body sample_delete) H).
Defined.

Lemma graphql_body_is_query_witness :
  @NewRequestOptions sample_env sample_graphql =
    {| Query := string_of (bytes_of "{ me }");
       Variables := ∅; OperationName := ""; File := ∅ |}.
Proof.
  apply (@graphql_body_is_query sample_env sample_graphql (bytes_of "{ me }")).
  - reflexivity.
  - reflexivity.
  - right. exists " charset=utf-8". reflexivity.
  - reflexivity.
Defined.

Lemma malformed_variables_give_empty_map_witness :
  Valid (bytes_of "{bad") = false ∧
  Query (@NewRequestOptions sample_env sample_form) = "{ me }" ∧
  Variables (@NewRequestOptions sample_env sample_form) = ∅.
Proof.
  split; [reflexivity|].
  pose (values := match sample_ParseForm sample_form with
                  | inl v => v
                  | inr _ => ∅
                  end).
  assert (Hq : Values_Get values "query" ≠ "") by (vm_compute; discriminate).
  destruct (@malformed_variables_give_empty_map sample_env values ∅ Hq eq_refl)
    as (_ & _ & H).
  destruct (H sample_form (readable "query={ me }&variables={bad&operationName=Me")
              eq_refl eq_refl eq_refl eq_refl) as (H1 & H2 & _).
  split; [exact H1 | exact H2].
Defined.

Lemma parse_errors_are_swallowed_witness :
  @parse_failure sample_env sample_broken ∧
  @NewRequestOptions sample_env sample_broken = zero_RequestOptions.
Proof.
  assert (H : @parse_failure sample_env sample_broken).
  { apply (@unreadable_body sample_env sample_broken unreadable
             (errors_New "unexpected EOF")); reflexivity. }
  split; [exact H|].
  exact (proj1 (@parse_errors_are_swallowed sample_env sample_broken eq_refl eq_refl) H).
Defined.

(** C2 as stated fails: a JSON body whose [variables] member is a number
    makes [json.Unmarshal] return an error, and the record returned still
    has the query of the body. *)
Lemma mistyped_member_keeps_query :
  (Unmarshal_opts (json_text "{'query':'{ me }','variables':1}") zero_RequestOptions).2
    = Some UnmarshalTypeError ∧
  @NewRequestOptions sample_env sample_mistyped =
    {| Query := "{ me }"; Variables := ∅; OperationName := ""; File := ∅ |} ∧
  @NewRequestOptions sample_env sample_mistyped ≠ zero_RequestOptions.
Proof.
  split; [reflexivity|]. split; [reflexivity|].
  intros H. apply (f_equal Query) in H. vm_compute in H. discriminate H.
Defined.





Lemma formatter_maps_every_error_witness :
  Errors (format_errors sample_handler sample_failure) =
    [sample_format (Some (errors_New "unknown field")); sample_format None].
Proof.
  assert (HN : (0 < length (Errors (@graphql_Do sample_env
                   (@request_params sample_env sample_handler sample_schema sample_ctx
                      sample_raw)
                   (@engine sample_env sample_world)).1))%nat)
    by (vm_compute; repeat constructor).
  destruct (@formatter_maps_every_error sample_env sample_handler sample_ctx sample_raw
              sample_world sample_schema sample_format eq_refl eq_refl HN)
    as (He & _).
  exact He.
Defined.

Lemma New_panics_iff_no_schema_witness :
  @New sample_env None "GraphQL Playground" = Panics "undefined GraphQL schema" ∧
  ∃ h, @New sample_env (Some sample_config) "GraphQL Playground" = Returns (h, "Console").
Proof.
  destruct (@New_panics_iff_no_schema sample_env None "GraphQL Playground") as [H1 _].
  destruct (@New_panics_iff_no_schema sample_env (Some sample_config)
              "GraphQL Playground") as [_ H2].
  split; [apply H1; exact I|].
  destruct (H2 sample_config sample_schema eq_refl eq_refl) as (title' & Hnew).
  eexists. reflexivity.
Defined.



Lemma sample_score_wants_json :
  ¬ @wants_console sample_env sample_handler sample_score_request.
Proof. intros (_ & _ & _ & H). vm_compute in H. discriminate H. Defined.

Lemma pretty_changes_layout_only_witness :
  ∃ j,
    written_by (@ContextHandler sample_env (with_pretty false sample_handler) sample_ctx
                  sample_score_request sample_world) = Some (compact j) ∧
    written_by (@ContextHandler sample_env (with_pretty true sample_handler) sample_ctx
                  sample_score_request sample_world)
      = Some (indented "" (String "009" "") j) ∧
    decode (compact j) = Some (coerce_json j) ∧
    decode (indented "" (String "009" "") j) = Some (coerce_json j).
Proof.
  destruct (@pretty_changes_layout_only sample_env sample_handler sample_ctx
              sample_score_request sample_world sample_schema eq_refl
              sample_score_wants_json) as [H _].
  destruct (Result_json (format_errors sample_handler sample_score)) as [j|] eqn:Hj;
    [|vm_compute in Hj; discriminate Hj].
  destruct (H j Hj) as (H1 & H2 & _ & _ & H3).
  assert (Hd : (nesting j <= maxNestingDepth)%N).
  { injection Hj as <-. vm_compute. discriminate. }
  exists j. split; [exact H1|]. split; [exact H2|]. exact (H3 Hd).
Defined.

(** C8 as stated fails: for a result with a value that has no JSON form
    the handler writes no bytes at all, with [pretty] off and on, and the
    empty text is not valid JSON. *)
Lemma unsupported_value_gives_invalid_body :
  written_by (@ContextHandler sample_env (with_pretty false sample_handler) sample_ctx
                sample_ratio sample_world) = Some [] ∧
  written_by (@ContextHandler sample_env (with_pretty true sample_handler) sample_ctx
                sample_ratio sample_world) = Some [] ∧
  Valid [] = false.
Proof. repeat split; reflexivity. Defined.


(** * Further properties of the resolution *)

Section MoreResolution.

Context {env : Environment}.

(** X1.  Without a query in the URL, the body is looked at for a POST that
    has one and for nothing else: any other method, and a request without
    a body, give the zero record, whatever the headers say. *)
Theorem only_posts_read_the_body (r : Request) :
  Values_Get (URL_Query r) "query" = "" →
  Method r ≠ "POST" ∨ Body r = None →
  NewRequestOptions r = zero_RequestOptions.
Proof.
  intros Hq H. unfold NewRequestOptions. rewrite (getFromForm_none _ Hq).
  destruct H as [Hm | Hb].
  - apply String.eqb_neq in Hm. unfold MethodPost. rewrite Hm. reflexivity.
  - rewrite Hb. destruct (negb _); reflexivity.
Qed.

(** X2.  [getFromMultipartForm] is [getFromForm] on the values of the
    form, with the files of the form put into the record it returns: the
    two agree on when they return nil and on every other field. *)
Theorem getFromMultipartForm_is_getFromForm_with_files (form : Form) :
  getFromMultipartForm form = with_files (Form_File form) <$> getFromForm (Value form).
Proof.
  destruct (String.eqb_spec (Values_Get (Value form) "query") "") as [He | Hne].
  - rewrite (getFromForm_none _ He). unfold getFromMultipartForm. rewrite He. reflexivity.
  - rewrite (getFromForm_some _ Hne), (getFromMultipartForm_some _ Hne). reflexivity.
Qed.

(** X3.  A posted form, urlencoded or multipart, that parses and has
    no [query] value, or an empty one, gives the zero record: its
    [variables] and [operationName] values and its files are dropped. *)
Theorem form_without_query_is_zero (r : Request) (b : Reader) (values : Values) :
  Method r = "POST" →
  Values_Get (URL_Query r) "query" = "" →
  Body r = Some b →
  posted_values r = Some values →
  Values_Get values "query" = "" →
  NewRequestOptions r = zero_RequestOptions.
Proof.
  intros Hm Hq Hb Hv Hquery. unfold NewRequestOptions.
  rewrite (getFromForm_none _ Hq), Hm, Hb. simpl.
  unfold posted_values in Hv. fold (content_type r).
  destruct (String.eqb (content_type r) ContentTypeGraphQL) eqn:Hg.
  { apply String.eqb_eq in Hg. rewrite Hg in Hv. discriminate. }
  destruct (String.eqb (content_type r) ContentTypeFormURLEncoded).
  - destruct (ParseForm r) as [v|]; [|discriminate]. injection Hv as ->.
    rewrite (getFromForm_none _ Hquery). reflexivity.
  - destruct (String.eqb (content_type r) ContentTypeMultipartFormData); [|discriminate].
    destruct (ParseMultipartForm r MaxUploadMemorySize) as [form|]; [|discriminate].
    injection Hv as <-. unfold getFromMultipartForm. rewrite Hquery. reflexivity.
Qed.

Lemma append_snoc (cur : string) (c : ascii) (p : string) :
  (cur +:+ String c "") +:+ p = cur +:+ String c p.
Proof.
  induction cur as [|a cur IH]; [reflexivity|].
  change (String a ((cur +:+ String c "") +:+ p) = String a (cur +:+ String c p)).
  f_equal. exact IH.
Qed.

Lemma append_empty (s : string) : s +:+ "" = s.
Proof.
  induction s as [|a s IH]; [reflexivity|].
  change (String a (s +:+ "") = String a s). f_equal. exact IH.
Qed.

Lemma HasPrefix_semicolon (c : ascii) (s : string) :
  HasPrefix (String c s) ";" = Ascii.eqb ";" c.
Proof.
  change (HasPrefix (String c s) ";") with (Ascii.eqb ";" c && true).
  apply andb_true_r.
Qed.

Lemma Contains_cons (c : ascii) (s sub : string) :
  Contains (String c s) sub = HasPrefix (String c s) sub || Contains s sub.
Proof. reflexivity. Qed.

Lemma Split_from_cons (sep : string) (c : ascii) (s cur : string) :
  Split_from sep (String c s) 0 cur =
  if HasPrefix (String c s) sep
  then cur :: Split_from sep s (String.length sep - 1) ""
  else Split_from sep s 0 (cur +:+ String c "").
Proof. reflexivity. Qed.

(** The first token of a split at semicolons is the text before the first
    semicolon, or the whole text when it has none. *)
Lemma Split_from_first (p cur : string) :
  Contains p ";" = false →
  hd "" (Split_from ";" p 0 cur) = cur +:+ p ∧
  ∀ rest, hd "" (Split_from ";" (p +:+ String ";" rest) 0 cur) = cur +:+ p.
Proof.
  revert cur. induction p as [|c p IH]; intros cur Hp.
  - split; [simpl; rewrite append_empty; reflexivity|].
    intros rest. change ("" +:+ String ";" rest) with (String ";" rest).
    rewrite Split_from_cons, HasPrefix_semicolon, append_empty. reflexivity.
  - rewrite Contains_cons, HasPrefix_semicolon in Hp.
    apply orb_false_iff in Hp as [Hc Hp].
    destruct (IH (cur +:+ String c "") Hp) as [IH1 IH2].
    split; [|intros rest].
    + rewrite Split_from_cons, HasPrefix_semicolon, Hc, IH1. apply append_snoc.
    + change (String c p +:+ String ";" rest) with (String c (p +:+ String ";" rest)).
      rewrite Split_from_cons, HasPrefix_semicolon, Hc, IH2. apply append_snoc.
Qed.

Lemma content_type_plain (r : Request) (p : string) :
  Values_Get (Header r) "Content-Type" = p →
  Contains p ";" = false →
  content_type r = p.
Proof.
  intros H Hp. unfold content_type, Split. rewrite H.
  apply (Split_from_first p "" Hp).
Qed.

Lemma content_type_with_parameters (r : Request) (p params : string) :
  Values_Get (Header r) "Content-Type" = p +:+ String ";" params →
  Contains p ";" = false →
  content_type r = p.
Proof.
  intros H Hp. unfold content_type, Split. rewrite H.
  apply (Split_from_first p "" Hp).
Qed.

(** What the handler returns for a body it reads itself: the options are
    a function of the content type without parameters and of the body. *)
Lemma NewRequestOptions_own_reading (r : Request) :
  Values_Get (URL_Query r) "query" = "" →
  Method r = "POST" →
  String.eqb (content_type r) ContentTypeFormURLEncoded = false →
  String.eqb (content_type r) ContentTypeMultipartFormData = false →
  NewRequestOptions r =
    match Body r with
    | None => zero_RequestOptions
    | Some b =>
        match failure b with
        | Some _ => zero_RequestOptions
        | None =>
            if String.eqb (content_type r) ContentTypeGraphQL
            then {| Query := string_of (data b); Variables := ∅;
                    OperationName := ""; File := ∅ |}
            else (Unmarshal_opts (data b) zero_RequestOptions).1
        end
    end.
Proof.
  intros Hq Hm Hf1 Hf2. unfold NewRequestOptions.
  rewrite (getFromForm_none _ Hq), Hm. simpl.
  destruct (Body r) as [b|]; [|reflexivity]. fold (content_type r).
  rewrite Hf1, Hf2. unfold ReadAll.
  destruct (String.eqb (content_type r) ContentTypeGraphQL), (failure b);
    try reflexivity.
Qed.

(** X4.  Parameters after a semicolon in the Content-Type header are
    ignored: two POSTs with the same body, one with the content type [p]
    and one with [p;params], resolve to the same options, for every [p]
    whose body the handler reads itself. *)
Theorem content_type_parameters_are_ignored (r1 r2 : Request) (p params : string) :
  Method r1 = "POST" → Method r2 = "POST" →
  Values_Get (URL_Query r1) "query" = "" →
  Values_Get (URL_Query r2) "query" = "" →
  Body r1 = Body r2 →
  Contains p ";" = false →
  p ≠ ContentTypeFormURLEncoded →
  p ≠ ContentTypeMultipartFormData →
  Values_Get (Header r1) "Content-Type" = p →
  Values_Get (Header r2) "Content-Type" = p +:+ String ";" params →
  NewRequestOptions r1 = NewRequestOptions r2.
Proof.
  intros Hm1 Hm2 Hq1 Hq2 Hb Hp Hf1 Hf2 H1 H2.
  pose proof (content_type_plain r1 p H1 Hp) as Hc1.
  pose proof (content_type_with_parameters r2 p params H2 Hp) as Hc2.
  apply String.eqb_neq in Hf1, Hf2.
  rewrite (NewRequestOptions_own_reading r1), (NewRequestOptions_own_reading r2);
    rewrite ?Hc1, ?Hc2; try assumption.
  rewrite Hb. reflexivity.
Qed.

Lemma store_field_File (st : RequestOptions * option error) (kv : string * json) :
  File (store_field st kv).1 = File st.1.
Proof.
  destruct st as [o e], kv as [k v]. unfold store_field.
  destruct (EqualFold k "query"); [destruct v; reflexivity|].
  destruct (EqualFold k "variables"); [destruct v; reflexivity|].
  destruct (EqualFold k "operationName"); [destruct v; reflexivity|].
  reflexivity.
Qed.

Lemma Unmarshal_opts_File (text : bytes) (o : RequestOptions) :
  File (Unmarshal_opts text o).1 = File o.
Proof.
  unfold Unmarshal_opts. destruct (decode text) as [[ | | | | |kvs]|]; try reflexivity.
  change (File o) with (File (o, @None error).1).
  generalize (o, @None error). induction kvs as [|kv kvs IH]; intros st; [reflexivity|].
  simpl. rewrite IH. apply store_field_File.
Qed.

(** X5.  Files come from a multipart form and from nowhere else: options
    with a file are those of a POST without a query in the URL, of content
    type multipart/form-data, whose form parsed and has a [query] value,
    and the files are the files of that form. *)
Theorem files_only_from_multipart (r : Request) :
  File (NewRequestOptions r) ≠ ∅ →
  Method r = "POST" ∧
  Values_Get (URL_Query r) "query" = "" ∧
  content_type r = ContentTypeMultipartFormData ∧
  ∃ form, ParseMultipartForm r MaxUploadMemorySize = inl form ∧
          Values_Get (Value form) "query" ≠ "" ∧
          File (NewRequestOptions r) = Form_File form.
Proof.
  unfold NewRequestOptions. fold (content_type r).
  destruct (String.eqb_spec (Values_Get (URL_Query r) "query") "") as [Hq | Hq].
  2: { rewrite (getFromForm_some _ Hq). simpl. congruence. }
  rewrite (getFromForm_none _ Hq).
  destruct (String.eqb_spec (Method r) MethodPost) as [Hm | Hm]; simpl; [|congruence].
  destruct (Body r) as [b|]; [|simpl; congruence].
  destruct (String.eqb (content_type r) ContentTypeGraphQL).
  { unfold ReadAll. destruct (failure b); simpl; congruence. }
  destruct (String.eqb (content_type r) ContentTypeFormURLEncoded).
  { destruct (ParseForm r) as [v|]; [|simpl; congruence].
    destruct (String.eqb_spec (Values_Get v "query") "") as [Hv | Hv].
    - rewrite (getFromForm_none _ Hv). simpl. congruence.
    - rewrite (getFromForm_some _ Hv). simpl. congruence. }
  destruct (String.eqb_spec (content_type r) ContentTypeMultipartFormData) as [Hc | Hc].
  - destruct (ParseMultipartForm r MaxUploadMemorySize) as [form|]; [|simpl; congruence].
    destruct (String.eqb_spec (Values_Get (Value form) "query") "") as [Hv | Hv].
    + unfold getFromMultipartForm. rewrite Hv. simpl. congruence.
    + rewrite (getFromMultipartForm_some _ Hv). simpl. intros _.
      repeat split; try assumption. exists form. auto.
  - unfold ReadAll. destruct (failure b); [simpl; congruence|].
    pose proof (Unmarshal_opts_File (data b) zero_RequestOptions) as HF.
    destruct (Unmarshal_opts _ _) as [opts e]. simpl in *. congruence.
Qed.

Lemma string_of_empty (l : bytes) : string_of l = "" → l = [].
Proof. destruct l; [reflexivity | discriminate]. Qed.

(** X6.  Options with an empty query that are not the zero record come
    from a body decoded as JSON only: every other path gives a query that
    is not empty or the zero record. *)
Theorem empty_query_with_fields_only_from_json (r : Request) :
  Query (NewRequestOptions r) = "" →
  NewRequestOptions r ≠ zero_RequestOptions →
  Method r = "POST" ∧ Values_Get (URL_Query r) "query" = "" ∧
  ∃ b, read_as_json r b.
Proof.
  assert (Hzero : ∀ P : Prop,
            Query zero_RequestOptions = "" →
            zero_RequestOptions ≠ zero_RequestOptions → P).
  { intros P _ H. destruct H. reflexivity. }
  unfold NewRequestOptions, read_as_json. fold (content_type r).
  destruct (String.eqb_spec (Values_Get (URL_Query r) "query") "") as [Hq | Hq].
  2: { rewrite (getFromForm_some _ Hq). simpl. congruence. }
  rewrite (getFromForm_none _ Hq).
  destruct (String.eqb_spec (Method r) MethodPost) as [Hm | Hm];
    cbv beta iota delta [negb]; [|apply Hzero].
  destruct (Body r) as [b|]; [|apply Hzero].
  destruct (String.eqb (content_type r) ContentTypeGraphQL).
  { unfold ReadAll. destruct (failure b); cbv beta iota; [apply Hzero|].
    intros H%string_of_empty. rewrite H. apply Hzero. reflexivity. }
  destruct (String.eqb (content_type r) ContentTypeFormURLEncoded).
  { destruct (ParseForm r) as [v|]; [|apply Hzero].
    destruct (String.eqb_spec (Values_Get v "query") "") as [Hv | Hv].
    - rewrite (getFromForm_none _ Hv). apply Hzero.
    - rewrite (getFromForm_some _ Hv). simpl. congruence. }
  destruct (String.eqb (content_type r) ContentTypeMultipartFormData).
  { destruct (ParseMultipartForm r MaxUploadMemorySize) as [form|]; [|apply Hzero].
    destruct (String.eqb_spec (Values_Get (Value form) "query") "") as [Hv | Hv].
    - unfold getFromMultipartForm. rewrite Hv. apply Hzero.
    - rewrite (getFromMultipartForm_some _ Hv). simpl. congruence. }
  unfold ReadAll. destruct (failure b) eqn:He; cbv beta iota; [apply Hzero|].
  intros _ _. repeat split; try assumption. exists b. auto.
Qed.

(** X8.  A [variables] value that is not the text of a JSON object, be it
    valid JSON or not, leaves the variables empty; the query and the
    operation name are kept. *)
Theorem variables_must_be_an_object (values : Values) :
  Values_Get values "query" ≠ "" →
  (∀ members, parse (bytes_of (Values_Get values "variables")) ≠ Some (JObj members)) →
  getFromForm values =
    Some {| Query := Values_Get values "query";
            Variables := ∅;
            OperationName := Values_Get values "operationName";
            File := ∅ |}.
Proof.
  intros Hq Hobj. rewrite (getFromForm_some _ Hq). unfold Unmarshal_map, decode.
  destruct (parse _) as [j|]; simpl; [|reflexivity].
  destruct (nesting j <=? maxNestingDepth)%N; [|reflexivity].
  destruct j as [ | | | | |members]; try reflexivity.
  destruct (Hobj members eq_refl).
Qed.

Lemma exact_wf (v : json) : exact v → wf v.
Proof.
  induction v as [ | b | lit | s | elems IH | members IH] using json_ind;
    intros H; inversion H; subst; constructor.
  - apply itoa_number_literal.
  - apply Forall_impl with (P := λ v, exact v ∧ (exact v → wf v)).
    + apply Forall_and. split; assumption.
    + intros v [? ?]; auto.
  - apply Forall_impl with (P := λ kv, exact kv.2 ∧ (exact kv.2 → wf kv.2)).
    + apply Forall_and. split; assumption.
    + intros v [? ?]; auto.
Qed.

Lemma store_members_cons (m : Variables_t) (kv : string * json)
    (kvs : list (string * json)) :
  store_members m (kv :: kvs) = store_members (<[kv.1 := kv.2]> m) kvs.
Proof. reflexivity. Qed.

Lemma store_members_other (kvs : list (string * json)) (m : Variables_t) (k : string) :
  k ∉ kvs.*1 → store_members m kvs !! k = m !! k.
Proof.
  revert m. induction kvs as [|[k0 v0] kvs IH]; intros m Hk; [reflexivity|].
  rewrite fmap_cons, not_elem_of_cons in Hk. destruct Hk as [Hne Hk].
  rewrite store_members_cons, (IH _ Hk). simpl in *.
  apply lookup_insert_ne. intros ->. apply Hne. reflexivity.
Qed.

(** With distinct keys, the map holds every member under its key and
    nothing new besides. *)
Lemma store_members_lookup (kvs : list (string * json)) (m : Variables_t)
    (k : string) (v : json) :
  NoDup kvs.*1 → (k, v) ∈ kvs → store_members m kvs !! k = Some v.
Proof.
  revert m. induction kvs as [|[k0 v0] kvs IH]; intros m Hnd Hin.
  { inversion Hin. }
  rewrite fmap_cons in Hnd. apply NoDup_cons in Hnd as [Hk0 Hnd].
  rewrite store_members_cons. apply elem_of_cons in Hin as [[= -> ->] | Hin].
  - rewrite (store_members_other _ _ _ Hk0). apply lookup_insert_eq.
  - apply IH; assumption.
Qed.

Lemma store_members_empty (kvs : list (string * json)) (k : string) (v : json) :
  NoDup kvs.*1 → store_members ∅ kvs !! k = Some v ↔ (k, v) ∈ kvs.
Proof.
  intros Hnd. split; [|apply store_members_lookup, Hnd].
  intros H. destruct (decide (k ∈ kvs.*1)) as [Hin | Hout].
  - apply list_elem_of_fmap in Hin as ([k' v'] & -> & Hin).
    rewrite (store_members_lookup _ _ _ _ Hnd Hin) in H. injection H as ->. exact Hin.
  - rewrite (store_members_other _ _ _ Hout), lookup_empty in H. discriminate.
Qed.

(** The library reads the object a client wrote back as its members,
    coerced to UTF-8. *)
Lemma decode_object (text : bytes) (vars : list (string * json)) :
  Forall (λ kv, exact kv.2) vars →
  (nesting (JObj vars) <= maxNestingDepth)%N →
  text = compact (JObj vars) →
  decode text = Some (JObj (coerce_members vars)).
Proof.
  intros Hex Hd ->.
  apply (decode_enc _ (JObj vars)); [|exact Hd].
  apply parse_compact, (exact_wf (JObj vars)). constructor. exact Hex.
Qed.

(** X7.  A [variables] value that is the compact JSON text of an object
    is read back as that object: the variables of the options hold each
    member under its name and nothing else.  This is for an object nested
    no deeper than the library reads, whose names are distinct once
    coerced to UTF-8, and whose numbers are integers a [float64] holds
    exactly; strings and names arrive coerced to UTF-8. *)
Theorem form_variables_round_trip (values : Values) (vars : list (string * json)) :
  Values_Get values "query" ≠ "" →
  Forall (λ kv, exact kv.2) vars →
  NoDup (coerce_members vars).*1 →
  (nesting (JObj vars) <= maxNestingDepth)%N →
  Values_Get values "variables" = string_of (compact (JObj vars)) →
  ∃ o, getFromForm values = Some o ∧
       ∀ k v, Variables o !! k = Some v ↔ (k, v) ∈ coerce_members vars.
Proof.
  intros Hq Hex Hnd Hd Hv. rewrite (getFromForm_some _ Hq). eexists. split; [reflexivity|].
  intros k v. simpl. rewrite Hv, list_ascii_of_string_of_list_ascii.
  unfold Unmarshal_map. rewrite (decode_object _ vars Hex Hd eq_refl). simpl.
  apply store_members_empty, Hnd.
Qed.

(** X9.  A JSON body that is the compact or the indented text of an
    object with [query], [variables] and [operationName] is resolved to
    these three: the query and the operation name as sent, each variable
    under its name, and no file.  This is for a body nested no deeper
    than the library reads, with variables whose names are distinct once
    coerced to UTF-8 and whose numbers are integers a [float64] holds
    exactly; strings and names arrive coerced to UTF-8. *)
Theorem json_body_round_trip (r : Request) (b : Reader) (query operationName : string)
    (vars : list (string * json)) :
  Values_Get (URL_Query r) "query" = "" →
  Method r = "POST" →
  read_as_json r b →
  Forall (λ kv, exact kv.2) vars →
  NoDup (coerce_members vars).*1 →
  (nesting (request_json query vars operationName) <= maxNestingDepth)%N →
  data b = compact (request_json query vars operationName) ∨
  data b = indented "" "  " (request_json query vars operationName) →
  Query (NewRequestOptions r) = coerce query ∧
  OperationName (NewRequestOptions r) = coerce operationName ∧
  File (NewRequestOptions r) = ∅ ∧
  ∀ k v, Variables (NewRequestOptions r) !! k = Some v ↔ (k, v) ∈ coerce_members vars.
Proof.
  intros Hq Hm Hj Hex Hnd Hd Hdata.
  rewrite (NewRequestOptions_json r b Hq Hm Hj). unfold Unmarshal_opts.
  assert (Hwf : wf (request_json query vars operationName)).
  { constructor. constructor; [apply wf_str|].
    constructor; [apply (exact_wf (JObj vars)); constructor; exact Hex|].
    constructor; [apply wf_str | constructor]. }
  assert (Hp : decode (data b)
               = Some (coerce_json (request_json query vars operationName))).
  { apply decode_enc; [|exact Hd]. destruct Hdata as [-> | ->].
    - apply parse_compact, Hwf.
    - apply parse_indented; [reflexivity | reflexivity | exact Hwf]. }
  rewrite Hp. repeat split; try reflexivity.
  - intros H. apply (store_members_empty (coerce_members vars) k v Hnd). exact H.
  - intros H. apply (store_members_empty (coerce_members vars) k v Hnd) in H. exact H.
Qed.

End MoreResolution.

(** * Further properties of execution and rendering *)

Section MoreServing.

Context {env : Environment}.

(** The four conditions hold or they do not. *)
Lemma classic_console (h : Handler) (r : Request) :
  wants_console h r ∨ ¬ wants_console h r.
Proof.
  destruct (graphiql h && (negb (Values_Has (URL_Query r) "raw")
              && negb (Contains (Values_Get (Header r) "Accept") "application/json")
              && Contains (Values_Get (Header r) "Accept") "text/html")) eqn:H.
  - left. apply console_condition, H.
  - right. intros Hw. apply console_condition in Hw. congruence.
Qed.

(** The handler on its console path: the engine, then the renderer. *)
Lemma ContextHandler_console (h : Handler) (ctx : Context_t) (r : Request) (w : World)
    (schema : Schema_t) :
  Schema h = Some schema →
  wants_console h r →
  ContextHandler h ctx r w =
    Returns (renderGraphiQL (request_params h schema ctx r)
               (Do (request_params h schema ctx r) w).2).
Proof.
  intros Hs Hw. unfold ContextHandler. rewrite Hs.
  fold (request_params h schema ctx r).
  destruct (Do _ w) as [result w1]. apply console_condition in Hw. rewrite Hw.
  reflexivity.
Qed.

Lemma engine_calls_app (evs1 evs2 : list event) :
  engine_calls (evs1 ++ evs2) = (engine_calls evs1 + engine_calls evs2)%nat.
Proof. unfold engine_calls. rewrite List.filter_app, length_app. reflexivity. Qed.

Lemma engine_calls_console_page (title : string) : engine_calls (console_page title) = 0%nat.
Proof. unfold console_page. destruct (template_Execute _ _); reflexivity. Qed.

(** X10.  A handler with a schema returns, after one call of the engine
    with the parameters of the request; it calls the engine a second time
    exactly when it serves the console, the query is not empty and the
    renderer has no early exit (the template parses and the variables are
    marshalled), and never a third time.  The title is left as it is. *)
Theorem engine_runs_twice_exactly_for_console_queries (h : Handler) (ctx : Context_t)
    (r : Request) (w : World) (schema : Schema_t) :
  Schema h = Some schema →
  ∃ w' evs,
    ContextHandler h ctx r w = Returns w' ∧
    trace w' = trace w ++ EvDo (request_params h schema ctx r) :: evs ∧
    Title w' = Title w ∧
    (wants_console h r ∧ Query (NewRequestOptions r) ≠ "" ∧
     early_exit (request_params h schema ctx r) = None → engine_calls evs = 1%nat) ∧
    (¬ (wants_console h r ∧ Query (NewRequestOptions r) ≠ "" ∧
        early_exit (request_params h schema ctx r) = None) →
     engine_calls evs = 0%nat).
Proof.
  intros Hs. set (params := request_params h schema ctx r).
  destruct (classic_console h r) as [Hw | Hn].
  - rewrite (ContextHandler_console h ctx r w schema Hs Hw). fold params.
    unfold Do. destruct (graphql_Do params (engine w)) as [result1 eng1]. simpl.
    destruct (early_exit params) as [err|] eqn:He.
    { rewrite (renderGraphiQL_early _ _ _ He). eexists _, [_].
      split; [reflexivity|].
      split; [simpl; rewrite <- app_assoc; reflexivity|]. split; [reflexivity|].
      split; [intros (_ & _ & [=]) | intros _; reflexivity]. }
    rewrite (renderGraphiQL_late _ _ He).
    destruct (String.eqb_spec (Query (NewRequestOptions r)) "") as [Hq | Hq]; simpl.
    + rewrite Hq. simpl. eexists _, (console_page (Title w)).
      split; [reflexivity|]. split; [simpl; rewrite <- app_assoc; reflexivity|].
      split; [reflexivity|]. split.
      * intros (_ & Hne & _). contradiction.
      * intros _. apply engine_calls_console_page.
    + rewrite (eqb_empty_false _ Hq). simpl.
      destruct (MarshalIndent _ _ _).2 as [err|].
      * eexists _, [_; _]. split; [reflexivity|].
        split; [simpl; rewrite <- !app_assoc; reflexivity|]. split; [reflexivity|].
        split; [intros _; reflexivity | intros Hc; destruct Hc; auto].
      * eexists _, (EvDo params :: console_page (Title w)). split; [reflexivity|].
        split; [simpl; rewrite <- !app_assoc; reflexivity|]. split; [reflexivity|].
        split.
        -- intros _. change (EvDo params :: console_page (Title w))
             with ([EvDo params] ++ console_page (Title w)).
           rewrite engine_calls_app, engine_calls_console_page. reflexivity.
        -- intros Hc. destruct Hc. auto.
  - rewrite (ContextHandler_json h ctx r w schema Hs Hn). fold params.
    eexists _, _. split; [reflexivity|]. simpl. split; [reflexivity|].
    split; [reflexivity|]. split.
    + intros (Hw & _). contradiction.
    + intros _. destruct (resultCallbackFn h); reflexivity.
Qed.

(** X11.  For a console request without a query, when the template
    parses and the variables are marshalled, the engine is called once,
    with the empty query, and the page is executed, with a 500 after it
    should the execution fail: nothing else is done. *)
Theorem console_without_query_renders_the_page (h : Handler) (ctx : Context_t)
    (r : Request) (w : World) (schema : Schema_t) :
  Schema h = Some schema →
  wants_console h r →
  Query (NewRequestOptions r) = "" →
  early_exit (request_params h schema ctx r) = None →
  let params := request_params h schema ctx r in
  ContextHandler h ctx r w =
    Returns {| trace := trace w ++ EvDo params :: console_page (Title w);
               engine := (graphql_Do params (engine w)).2;
               Title := Title w |}.
Proof.
  intros Hs Hw Hq He params.
  rewrite (ContextHandler_console h ctx r w schema Hs Hw). fold params.
  rewrite (renderGraphiQL_late _ _ He). fold params.
  assert (Hrs : negb (String.eqb (RequestString params) "") = false).
  { simpl. rewrite Hq. reflexivity. }
  rewrite Hrs. unfold Do.
  destruct (graphql_Do params (engine w)) as [result1 eng1]. simpl.
  rewrite <- app_assoc. reflexivity.
Qed.

(** X12.  When the template does not parse, a console request is
    answered with status 500 and the text of the error, after the one
    call of the engine; no page is executed. *)
Theorem template_parse_failure_is_500 (h : Handler) (ctx : Context_t) (r : Request)
    (w : World) (schema : Schema_t) (err : error) :
  Schema h = Some schema →
  wants_console h r →
  template_Parse graphiqlTemplate = Some err →
  let params := request_params h schema ctx r in
  ContextHandler h ctx r w =
    Returns {| trace := trace w ++ [EvDo params; EvHttpError (Error err) 500];
               engine := (graphql_Do params (engine w)).2;
               Title := Title w |}.
Proof.
  intros Hs Hw Hp params.
  rewrite (ContextHandler_console h ctx r w schema Hs Hw). fold params.
  unfold renderGraphiQL, Do.
  destruct (graphql_Do params (engine w)) as [result1 eng1]. rewrite Hp.
  unfold emit. simpl. rewrite <- !app_assoc. reflexivity.
Qed.

(** The renderer writes nothing to the response writer itself and does
    not call the result callback. *)
Lemma renderGraphiQL_own_output (params : Params_t) (w : World) :
  ∃ evs, trace (renderGraphiQL params w) = trace w ++ evs ∧
         forallb (λ e, negb (is_own_output e)) evs = true.
Proof.
  destruct (early_exit params) as [err|] eqn:He.
  { rewrite (renderGraphiQL_early _ _ _ He). eexists [_]. split; reflexivity. }
  rewrite (renderGraphiQL_late _ _ He). unfold console_page.
  destruct (negb (String.eqb (RequestString params) "")).
  - destruct (MarshalIndent _ _ _).2 as [err|].
    + eexists [_; _]. split; reflexivity.
    + destruct (template_Execute _ _).
      * eexists [_; _; _]. split; reflexivity.
      * eexists [_; _]. split; reflexivity.
  - destruct (template_Execute _ _).
    + eexists [_; _]. split; reflexivity.
    + eexists [_]. split; reflexivity.
Qed.

(** X13.  On the console path the handler adds no header, writes no
    status and no bytes itself, and does not call the result callback:
    the response is left to [http.Error] and the template. *)
Theorem console_skips_the_callback (h : Handler) (ctx : Context_t) (r : Request)
    (w : World) (schema : Schema_t) :
  Schema h = Some schema →
  wants_console h r →
  ∃ w' evs,
    ContextHandler h ctx r w = Returns w' ∧
    trace w' = trace w ++ evs ∧
    (∀ e, e ∈ evs → is_own_output e = false) ∧
    written w' = written w.
Proof.
  intros Hs Hw. rewrite (ContextHandler_console h ctx r w schema Hs Hw).
  set (params := request_params h schema ctx r).
  destruct (renderGraphiQL_own_output params (Do params w).2) as (evs & Htr & Hown).
  assert (Hall : ∀ e, e ∈ EvDo params :: evs → is_own_output e = false).
  { intros e [-> | He]%elem_of_cons; [reflexivity|].
    rewrite forallb_forall in Hown. apply list_elem_of_In, Hown in He.
    apply negb_true_iff, He. }
  exists (renderGraphiQL params (Do params w).2), (EvDo params :: evs).
  assert (Htr' : trace (renderGraphiQL params (Do params w).2)
                 = trace w ++ EvDo params :: evs).
  { rewrite Htr. unfold Do. destruct (graphql_Do params (engine w)). simpl.
    rewrite <- app_assoc. reflexivity. }
  split; [reflexivity|]. split; [exact Htr'|]. split; [exact Hall|].
  unfold written. rewrite Htr', flat_map_app.
  assert (Hnone : flat_map (λ e, match e with EvWrite b => b | _ => [] end)
                    (EvDo params :: evs) = []).
  { revert Hall. generalize (EvDo params :: evs). intros l Hl.
    induction l as [|e l IH]; [reflexivity|]. simpl.
    rewrite IH; [|intros e' He'; apply Hl; right; exact He'].
    pose proof (Hl e (list_elem_of_here _ _)) as He. destruct e; try reflexivity.
    discriminate He. }
  rewrite Hnone. apply app_nil_r.
Qed.

(** X14.  On the console path [pretty] and the result callback play no
    part: two handlers that agree on the schema, on [graphiql], on the
    root object function and on the error formatter do the same. *)
Theorem console_ignores_pretty_and_callback (h h' : Handler)
    (ctx : Context_t) (r : Request) (w : World) :
  Schema h = Schema h' →
  graphiql h = graphiql h' →
  rootObjectFn h = rootObjectFn h' →
  formatErrorFn h = formatErrorFn h' →
  wants_console h r →
  ContextHandler h ctx r w = ContextHandler h' ctx r w.
Proof.
  intros Hs Hg Hr _ Hw.
  assert (Hw' : wants_console h' r).
  { destruct Hw as (H1 & H2). split; [congruence | exact H2]. }
  destruct (Schema h) as [schema|] eqn:Hsch.
  - rewrite (ContextHandler_console h ctx r w schema Hsch Hw).
    rewrite (ContextHandler_console h' ctx r w schema (eq_sym Hs) Hw').
    unfold request_params. rewrite Hr. reflexivity.
  - unfold ContextHandler. rewrite Hsch, <- Hs. reflexivity.
Qed.

(** Every page the renderer writes is the template [index] with the
    package variable [Title] as its one argument. *)
Lemma renderGraphiQL_pages (params : Params_t) (w : World) :
  ∃ evs, trace (renderGraphiQL params w) = trace w ++ evs ∧
         ∀ name args, EvExecuteTemplate name args ∈ evs →
                      name = "index" ∧ args = [("Title", Title w)].
Proof.
  assert (Hpage : ∀ (pre : list event) name args,
            (∀ e, e ∈ pre → is_engine_call e = true ∨ ∃ t c, e = EvHttpError t c) →
            EvExecuteTemplate name args ∈ pre ++ console_page (Title w) →
            name = "index" ∧ args = [("Title", Title w)]).
  { intros pre name args Hpre [Hin | Hin]%elem_of_app.
    - destruct (Hpre _ Hin) as [H | (t & c & H)]; discriminate H.
    - unfold console_page in Hin. apply elem_of_cons in Hin as [[= -> ->] | Hin]; [auto|].
      destruct (template_Execute _ _); [|inversion Hin].
      apply list_elem_of_singleton in Hin. discriminate Hin. }
  destruct (early_exit params) as [err|] eqn:He.
  { rewrite (renderGraphiQL_early _ _ _ He). eexists [_]. split; [reflexivity|].
    intros name args Hin. apply list_elem_of_singleton in Hin. discriminate Hin. }
  rewrite (renderGraphiQL_late _ _ He).
  destruct (negb (String.eqb (RequestString params) "")).
  - destruct (MarshalIndent _ _ _).2 as [err|].
    + eexists [_; _]. split; [reflexivity|].
      intros name args Hin. apply elem_of_cons in Hin as [Hin | Hin]; [discriminate Hin|].
      apply list_elem_of_singleton in Hin. discriminate Hin.
    + exists ([EvDo params] ++ console_page (Title w)). split; [reflexivity|].
      intros name args. apply Hpage.
      intros e He'. apply list_elem_of_singleton in He'. subst e. left. reflexivity.
  - exists ([] ++ console_page (Title w)). split; [reflexivity|].
    intros name args. apply Hpage. intros e He'. inversion He'.
Qed.

(** X16.  The title is shared by all handlers: after a second [New],
    every page a handler of the first [New] executes carries the title of
    the second configuration, or, if that is empty, the title the first
    [New] left. *)
Theorem later_New_retitles_every_console (c1 c2 : Config) (h1 h2 : Handler)
    (title0 title1 title2 : string) (ctx : Context_t) (r : Request) (w : World) :
  New (Some c1) title0 = Returns (h1, title1) →
  New (Some c2) title1 = Returns (h2, title2) →
  Title w = title2 →
  ∃ w' evs,
    ContextHandler h1 ctx r w = Returns w' ∧
    trace w' = trace w ++ evs ∧
    ∀ name args, EvExecuteTemplate name args ∈ evs →
      args = [("Title",
               if String.eqb (Config_Title c2) ""
               then (if String.eqb (Config_Title c1) "" then title0 else Config_Title c1)
               else Config_Title c2)].
Proof.
  intros H1 H2 Hw. unfold New in H1, H2.
  destruct (Config_Schema c1) as [schema1|] eqn:Hs1; [|discriminate].
  destruct (Config_Schema c2) as [schema2|] eqn:Hs2; [|discriminate].
  injection H1 as <- <-. injection H2 as _ <-.
  assert (Ht : Title w = if String.eqb (Config_Title c2) ""
                         then (if String.eqb (Config_Title c1) "" then title0
                               else Config_Title c1)
                         else Config_Title c2).
  { rewrite Hw. destruct (String.eqb (Config_Title c2) ""),
      (String.eqb (Config_Title c1) ""); reflexivity. }
  rewrite <- Ht. clear Ht Hw.
  match goal with |- context [ContextHandler ?h _ _ _] => set (h1 := h) end.
  destruct (classic_console h1 r) as [Hc | Hn].
  - rewrite (ContextHandler_console h1 ctx r w schema1 eq_refl Hc).
    set (params := request_params h1 schema1 ctx r).
    destruct (renderGraphiQL_pages params (Do params w).2) as (evs & Htr & Hp).
    exists (renderGraphiQL params (Do params w).2), (EvDo params :: evs).
    split; [reflexivity|]. split.
    + rewrite Htr. unfold Do. destruct (graphql_Do params (engine w)). simpl.
      rewrite <- app_assoc. reflexivity.
    + intros name args [Hin | Hin]%elem_of_cons; [discriminate Hin|].
      destruct (Hp name args Hin) as [_ ->].
      unfold Do. destruct (graphql_Do params (engine w)). reflexivity.
  - rewrite (ContextHandler_json h1 ctx r w schema1 eq_refl Hn).
    eexists _, _. split; [reflexivity|]. split; [reflexivity|].
    intros name args Hin. exfalso.
    repeat (apply elem_of_cons in Hin as [Hin | Hin]; [discriminate Hin|]).
    destruct (resultCallbackFn h1).
    + apply list_elem_of_singleton in Hin. discriminate Hin.
    + inversion Hin.
Qed.

(** X17.  Without a formatter, or when the engine reports no error, the
    result of the engine is written as it is: the calls on the JSON path
    are the engine, the header, status 200, the marshalled result, and
    the callback with the same result and the same bytes if it is set. *)
Theorem results_pass_unformatted (h : Handler) (ctx : Context_t) (r : Request)
    (w : World) (schema : Schema_t) :
  Schema h = Some schema →
  ¬ wants_console h r →
  let params := request_params h schema ctx r in
  let reported := (graphql_Do params (engine w)).1 in
  formatErrorFn h = None ∨ Errors reported = [] →
  ContextHandler h ctx r w =
    Returns
      {| trace :=
           trace w ++
             [EvDo params;
              EvHeaderAdd "Content-Type" "application/json; charset=utf-8";
              EvWriteHeader 200;
              EvWrite (response_body h reported)]
             ++ (if resultCallbackFn h
                 then [EvResultCallback params reported (response_body h reported)]
                 else []);
         engine := (graphql_Do params (engine w)).2;
         Title := Title w |}.
Proof.
  intros Hs Hn params reported Hplain.
  rewrite (ContextHandler_json h ctx r w schema Hs Hn). fold params reported.
  assert (Hf : format_errors h reported = reported).
  { unfold format_errors. destruct Hplain as [-> | ->]; [reflexivity|].
    destruct (formatErrorFn h); reflexivity. }
  rewrite Hf. reflexivity.
Qed.

End MoreServing.


(** * The handler with hooks *)

Section HooksServing.

Import Hooks.

Context {env : Environment}.

Variable renderGraphiQL : Handler -> Params_t -> Engine -> list call * Engine.

#[local] Arguments Marshal : simpl never.
#[local] Arguments MarshalIndent : simpl never.
#[local] Arguments NewRequestOptions : simpl never.

Lemma hooks_console_condition (h : Handler) (r : Request) :
  graphiql h &&
    (negb (Values_Has (URL_Query r) "raw")
     && negb (Contains (Values_Get (Header r) "Accept") "application/json")
     && Contains (Values_Get (Header r) "Accept") "text/html") = true
  ↔ wants_console h r.
Proof.
  unfold wants_console, Values_Has.
  destruct (graphiql h), (URL_Query r !! "raw"),
    (Contains _ "application/json"), (Contains _ "text/html");
    simpl; split; intros; try discriminate; try tauto; destruct_and?; discriminate.
Qed.

(** The handler with a schema, as the calls it adds: the engine, then the
    renderer's on the console path, and on the JSON path the header, the
    status, the bytes and the finish hook; the exit hook after them. *)
Lemma hooks_ContextHandler_calls (h : Handler) (ctx : Context_t) (r : Request)
    (w : World) (schema : Schema_t) :
  Schema h = Some schema →
  let params := request_params h schema ctx r in
  let result := (graphql_Do params (engine w)).1 in
  let eng := (graphql_Do params (engine w)).2 in
  let buff := response_body h result in
  ContextHandler renderGraphiQL h ctx r w =
    if graphiql h &&
         (negb (Values_Has (URL_Query r) "raw")
          && negb (Contains (Values_Get (Header r) "Accept") "application/json")
          && Contains (Values_Get (Header r) "Accept") "text/html")
    then
      ({| trace := trace w ++ Call (EvDo params) :: (renderGraphiQL h params eng).1
                     ++ (if exitFn h then [CallExit] else []);
          engine := (renderGraphiQL h params eng).2 |}, None)
    else
      ({| trace :=
            trace w ++
              [Call (EvDo params);
               Call (EvHeaderAdd "Content-Type" "application/json; charset=utf-8");
               Call (EvWriteHeader 200);
               Call (EvWrite buff)]
              ++ (if finishFn h then [CallFinish buff] else [])
              ++ (if exitFn h then [CallExit] else []);
          engine := eng |}, None).
Proof.
  intros Hs. simpl. unfold ContextHandler, response_body, deferred. rewrite Hs.
  fold (request_params h schema ctx r).
  destruct (graphql_Do _ (engine w)) as [result eng]. simpl.
  destruct (graphiql h && _).
  - destruct (renderGraphiQL _ _ _) as [evs eng']. simpl.
    destruct (exitFn h); unfold emit; simpl; rewrite <- ?app_assoc; simpl;
      rewrite ?List.app_nil_r; reflexivity.
  - destruct (pretty h), (finishFn h), (exitFn h);
      try destruct (MarshalIndent _ _ _) as [buff e];
      try destruct (Marshal _) as [buff e];
      unfold emit; simpl; rewrite <- ?app_assoc; reflexivity.
Qed.

Lemma hooks_json_condition (h : Handler) (r : Request) :
  ¬ wants_console h r →
  graphiql h &&
    (negb (Values_Has (URL_Query r) "raw")
     && negb (Contains (Values_Get (Header r) "Accept") "application/json")
     && Contains (Values_Get (Header r) "Accept") "text/html") = false.
Proof.
  intros Hn. apply not_true_is_false. intros Hc. apply Hn, hooks_console_condition, Hc.
Qed.

(** X18.  The exit hook, when set, is the last call of the handler on
    every path: after the console, after the JSON response and its finish
    hook, and when the handler panics for want of a schema. *)
Theorem exit_hook_is_the_last_call (h : Handler) (ctx : Context_t) (r : Request)
    (w : World) :
  exitFn h = true →
  ∃ calls,
    trace (ContextHandler renderGraphiQL h ctx r w).1 = trace w ++ calls ++ [CallExit].
Proof.
  intros He. destruct (Schema h) as [schema|] eqn:Hs.
  - rewrite (hooks_ContextHandler_calls h ctx r w schema Hs). simpl. rewrite He.
    destruct (graphiql h && _); simpl.
    + exists (Call (EvDo (request_params h schema ctx r))
              :: (renderGraphiQL h (request_params h schema ctx r)
                    (graphql_Do (request_params h schema ctx r) (engine w)).2).1).
      reflexivity.
    + destruct (finishFn h); simpl.
      * exists [Call (EvDo (request_params h schema ctx r));
                Call (EvHeaderAdd "Content-Type" "application/json; charset=utf-8");
                Call (EvWriteHeader 200);
                Call (EvWrite (response_body h
                   (graphql_Do (request_params h schema ctx r) (engine w)).1));
                CallFinish (response_body h
                   (graphql_Do (request_params h schema ctx r) (engine w)).1)].
        reflexivity.
      * exists [Call (EvDo (request_params h schema ctx r));
                Call (EvHeaderAdd "Content-Type" "application/json; charset=utf-8");
                Call (EvWriteHeader 200);
                Call (EvWrite (response_body h
                   (graphql_Do (request_params h schema ctx r) (engine w)).1))].
        reflexivity.
  - unfold ContextHandler, deferred. rewrite Hs, He. exists []. reflexivity.
Qed.

(** X19.  On the JSON path the finish hook, when set, is called once,
    after the bytes are written and before the exit hook, with exactly
    the bytes that were written; the status is 200. *)
Theorem finish_hook_gets_the_written_bytes (h : Handler) (ctx : Context_t)
    (r : Request) (w : World) (schema : Schema_t) :
  Schema h = Some schema →
  ¬ wants_console h r →
  let params := request_params h schema ctx r in
  let result := (graphql_Do params (engine w)).1 in
  let buff := response_body h result in
  ContextHandler renderGraphiQL h ctx r w =
    ({| trace :=
          trace w ++
            [Call (EvDo params);
             Call (EvHeaderAdd "Content-Type" "application/json; charset=utf-8");
             Call (EvWriteHeader 200);
             Call (EvWrite buff)]
            ++ (if finishFn h then [CallFinish buff] else [])
            ++ (if exitFn h then [CallExit] else []);
        engine := (graphql_Do params (engine w)).2 |}, None).
Proof.
  intros Hs Hn. rewrite (hooks_ContextHandler_calls h ctx r w schema Hs).
  simpl. rewrite (hooks_json_condition h r Hn). reflexivity.
Qed.

(** X20.  On the console path the handler calls the engine, hands the
    response to the renderer and calls the exit hook, if set: it writes
    nothing itself and does not call the finish hook. *)
Theorem console_path_skips_finish (h : Handler) (ctx : Context_t) (r : Request)
    (w : World) (schema : Schema_t) :
  Schema h = Some schema →
  wants_console h r →
  let params := request_params h schema ctx r in
  let rendered := renderGraphiQL h params (graphql_Do params (engine w)).2 in
  ContextHandler renderGraphiQL h ctx r w =
    ({| trace := trace w ++ Call (EvDo params) :: rendered.1
                   ++ (if exitFn h then [CallExit] else []);
        engine := rendered.2 |}, None).
Proof.
  intros Hs Hw. rewrite (hooks_ContextHandler_calls h ctx r w schema Hs).
  simpl. apply hooks_console_condition in Hw. rewrite Hw. reflexivity.
Qed.


Lemma space_is_space : all_space (bytes_of " ").
Proof. reflexivity. Qed.

(** X22.  For a result that has a JSON form, the bytes the handler with
    hooks writes, and hands to the finish hook, decode to that form, with
    [pretty] on, where the indent is one space, and off. *)
Theorem hooks_bytes_decode_to_the_result (h : Handler) (ctx : Context_t)
    (r : Request) (w : World) (schema : Schema_t) (j : json) :
  Schema h = Some schema →
  ¬ wants_console h r →
  Result_json (graphql_Do (request_params h schema ctx r) (engine w)).1 = Some j →
  ∃ calls,
    trace (ContextHandler renderGraphiQL h ctx r w).1 = trace w ++ calls ∧
    (∃ buf, Call (EvWrite buf) ∈ calls) ∧
    ∀ buf, Call (EvWrite buf) ∈ calls ∨ CallFinish buf ∈ calls →
           parse buf = Some (coerce_json j).
Proof.
  intros Hs Hn Hj. rewrite (hooks_ContextHandler_calls h ctx r w schema Hs).
  simpl. rewrite (hooks_json_condition h r Hn).
  set (params := request_params h schema ctx r) in *.
  set (result := (graphql_Do params (engine w)).1) in *.
  assert (Hp : parse (response_body h result) = Some (coerce_json j)).
  { pose proof (Result_json_wf _ _ Hj) as Hwf.
    unfold response_body, Marshal, MarshalIndent. rewrite Hj.
    destruct (pretty h); simpl.
    - apply parse_indented; [reflexivity | apply space_is_space | exact Hwf].
    - apply parse_compact, Hwf. }
  eexists. split; [reflexivity|]. split.
  - exists (response_body h result). do 3 right. left.
  - intros buf [Hin | Hin].
    + repeat (apply elem_of_cons in Hin as [Hin | Hin]; [try discriminate Hin|]).
      * injection Hin as ->. exact Hp.
      * destruct (finishFn h), (exitFn h); simpl in Hin;
          repeat (apply elem_of_cons in Hin as [Hin | Hin]; [discriminate Hin|]);
          inversion Hin.
    + repeat (apply elem_of_cons in Hin as [Hin | Hin]; [discriminate Hin|]).
      destruct (finishFn h), (exitFn h); simpl in Hin;
        repeat (apply elem_of_cons in Hin as [Hin | Hin];
                [try discriminate Hin; injection Hin as ->; exact Hp|]);
        inversion Hin.
Qed.

End HooksServing.


(** * The further properties at the sample requests *)

Lemma only_posts_read_the_body_witness :
  Body sample_get_with_body ≠ None ∧
  @NewRequestOptions sample_env sample_get_with_body = zero_RequestOptions.
Proof.
  split; [discriminate|].
  apply (@only_posts_read_the_body sample_env sample_get_with_body).
  - reflexivity.
  - left. discriminate.
Defined.

Lemma form_without_query_is_zero_witness :
  @NewRequestOptions sample_env sample_form_without_query = zero_RequestOptions.
Proof.
  apply (@form_without_query_is_zero sample_env sample_form_without_query
           (readable "variables={}&operationName=Me")
           {["variables" := ["{}"]; "operationName" := ["Me"]]}).
  - reflexivity.
  - reflexivity.
  - reflexivity.
  - vm_compute. reflexivity.
  - reflexivity.
Defined.

Lemma content_type_parameters_are_ignored_witness :
  @NewRequestOptions sample_env sample_graphql_plain
  = @NewRequestOptions sample_env sample_graphql.
Proof.
  apply (@content_type_parameters_are_ignored sample_env sample_graphql_plain
           sample_graphql "application/graphql" " charset=utf-8").
  - reflexivity.
  - reflexivity.
  - reflexivity.
  - reflexivity.
  - reflexivity.
  - reflexivity.
  - discriminate.
  - discriminate.
  - reflexivity.
  - reflexivity.
Defined.

Lemma sample_upload_has_a_file : File (@NewRequestOptions sample_env sample_upload) ≠ ∅.
Proof.
  intros H. apply (f_equal (λ m, m !! "upload")) in H. vm_compute in H. discriminate H.
Defined.

Lemma files_only_from_multipart_witness :
  content_type sample_upload = ContentTypeMultipartFormData ∧
  ∃ form, @ParseMultipartForm sample_env sample_upload MaxUploadMemorySize = inl form ∧
          File (@NewRequestOptions sample_env sample_upload) = Form_File form.
Proof.
  destruct (@files_only_from_multipart sample_env sample_upload sample_upload_has_a_file)
    as (_ & _ & Hc & form & Hf & _ & HF).
  split; [exact Hc|]. exists form. split; [exact Hf | exact HF].
Defined.

Lemma sample_variables_only_not_zero :
  @NewRequestOptions sample_env sample_variables_only ≠ zero_RequestOptions.
Proof.
  intros H. apply (f_equal (λ o, Variables o !! "id")) in H. vm_compute in H.
  discriminate H.
Defined.

Lemma empty_query_with_fields_only_from_json_witness :
  Variables (@NewRequestOptions sample_env sample_variables_only) !! "id"
    = Some (JNum (itoa 7)) ∧
  ∃ b, read_as_json sample_variables_only b.
Proof.
  split; [vm_compute; reflexivity|].
  destruct (@empty_query_with_fields_only_from_json sample_env sample_variables_only
              eq_refl sample_variables_only_not_zero) as (_ & _ & H).
  exact H.
Defined.

Lemma sample_vars_exact : Forall (λ kv, exact kv.2) sample_vars.
Proof.
  constructor; [apply (exact_num 7); vm_compute; discriminate|].
  constructor; [apply exact_str|].
  constructor; [apply exact_arr; repeat constructor|].
  constructor.
Defined.

Lemma sample_vars_NoDup : NoDup (coerce_members sample_vars).*1.
Proof.
  change (NoDup ["id"; "name"; "tags"]).
  repeat constructor; intros H;
    repeat (apply elem_of_cons in H as [H | H]; [discriminate H|]); inversion H.
Defined.

Lemma sample_values_query : Values_Get sample_values "query" ≠ "".
Proof. vm_compute. discriminate. Defined.

Lemma form_variables_round_trip_witness :
  ∃ o, getFromForm sample_values = Some o ∧
       Variables o !! "name" = Some (JStr "Ada") ∧
       Variables o !! "query" = None.
Proof.
  assert (Hd : (nesting (JObj sample_vars) <= maxNestingDepth)%N)
    by (vm_compute; discriminate).
  destruct (form_variables_round_trip sample_values sample_vars sample_values_query
              sample_vars_exact sample_vars_NoDup Hd eq_refl) as (o & Ho & Hv).
  exists o. split; [exact Ho|]. split.
  - apply Hv. change (("name", JStr "Ada") ∈
                      [("id", JNum (itoa 7)); ("name", JStr "Ada");
                       ("tags", JArr [JStr "a"; JNull])]).
    right. left.
  - destruct (Variables o !! "query") as [v|] eqn:Hq; [|reflexivity].
    apply Hv in Hq.
    change ((("query" : string), v) ∈
            [("id", JNum (itoa 7)); ("name", JStr "Ada");
             ("tags", JArr [JStr "a"; JNull])]) in Hq.
    repeat (apply elem_of_cons in Hq as [Hq | Hq]; [discriminate Hq|]). inversion Hq.
Defined.

Lemma variables_must_be_an_object_witness :
  Valid (bytes_of "[1,2]") = true ∧
  getFromForm sample_values_array =
    Some {| Query := "{ me }"; Variables := ∅; OperationName := "Me"; File := ∅ |}.
Proof.
  split; [reflexivity|].
  apply (variables_must_be_an_object sample_values_array).
  - vm_compute. discriminate.
  - intros members H. vm_compute in H. discriminate H.
Defined.

Lemma sample_json_request_read :
  read_as_json sample_json_request
    {| data := indented "" "  " (request_json "{ me }" sample_vars "Me");
       failure := None |}.
Proof. repeat split; reflexivity. Defined.

Lemma json_body_round_trip_witness :
  Query (@NewRequestOptions sample_env sample_json_request) = "{ me }" ∧
  OperationName (@NewRequestOptions sample_env sample_json_request) = "Me" ∧
  Variables (@NewRequestOptions sample_env sample_json_request) !! "id"
    = Some (JNum (itoa 7)).
Proof.
  assert (Hd : (nesting (request_json "{ me }" sample_vars "Me") <= maxNestingDepth)%N)
    by (vm_compute; discriminate).
  destruct (@json_body_round_trip sample_env sample_json_request _ "{ me }" "Me"
              sample_vars eq_refl eq_refl sample_json_request_read sample_vars_exact
              sample_vars_NoDup Hd (or_intror eq_refl)) as (Hq & Ho & _ & Hv).
  split; [exact Hq|]. split; [exact Ho|]. apply Hv.
  change (("id", JNum (itoa 7)) ∈
          [("id", JNum (itoa 7)); ("name", JStr "Ada");
           ("tags", JArr [JStr "a"; JNull])]).
  left.
Defined.

Lemma sample_browser_wants_console : @wants_console sample_env sample_handler sample_browser.
Proof. repeat split; reflexivity. Defined.

Lemma engine_runs_twice_exactly_for_console_queries_witness :
  ∃ w' evs,
    @ContextHandler sample_env sample_handler sample_ctx sample_browser sample_world
      = Returns w' ∧
    trace w' = trace sample_world
                 ++ EvDo (@request_params sample_env sample_handler sample_schema
                            sample_ctx sample_browser) :: evs ∧
    engine_calls evs = 1%nat.
Proof.
  destruct (@engine_runs_twice_exactly_for_console_queries sample_env sample_handler
              sample_ctx sample_browser sample_world sample_schema eq_refl)
    as (w' & evs & Hrun & Htr & _ & H1 & _).
  exists w', evs. split; [exact Hrun|]. split; [exact Htr|].
  apply H1. split; [exact sample_browser_wants_console|].
  split; [vm_compute; discriminate | reflexivity].
Defined.

Lemma sample_browser_plain_wants_console :
  @wants_console sample_env sample_handler sample_browser_plain.
Proof. repeat split; reflexivity. Defined.

Lemma console_without_query_renders_the_page_witness :
  @ContextHandler sample_env sample_handler sample_ctx sample_browser_plain sample_world
  = Returns
      {| trace :=
           [EvDo (@request_params sample_env sample_handler sample_schema sample_ctx
                    sample_browser_plain);
            EvExecuteTemplate "index" [("Title", "GraphQL Playground")]];
         engine := (1%nat : @Engine sample_env);
         Title := "GraphQL Playground" |}.
Proof.
  exact (@console_without_query_renders_the_page sample_env sample_handler sample_ctx
           sample_browser_plain sample_world sample_schema eq_refl
           sample_browser_plain_wants_console eq_refl eq_refl).
Defined.

Lemma sample_broken_template_wants_console :
  @wants_console sample_env_broken_template sample_handler_broken_template sample_browser.
Proof. repeat split; reflexivity. Defined.

Lemma template_parse_failure_is_500_witness :
  @ContextHandler sample_env_broken_template sample_handler_broken_template
    sample_ctx_broken_template sample_browser sample_world_broken_template
  = Returns
      {| trace :=
           [EvDo (@request_params sample_env_broken_template
                    sample_handler_broken_template sample_schema_broken_template
                    sample_ctx_broken_template sample_browser);
            EvHttpError "template: GraphiQL:1: unclosed action" 500];
         engine := (1%nat : @Engine sample_env_broken_template);
         Title := "GraphQL Playground" |}.
Proof.
  exact (@template_parse_failure_is_500 sample_env_broken_template
           sample_handler_broken_template sample_ctx_broken_template sample_browser
           sample_world_broken_template sample_schema_broken_template
           (errors_New "template: GraphiQL:1: unclosed action") eq_refl
           sample_broken_template_wants_console eq_refl).
Defined.

Lemma console_skips_the_callback_witness :
  ∃ w',
    @ContextHandler sample_env sample_handler sample_ctx sample_browser sample_world
      = Returns w' ∧
    written w' = [] ∧
    ∀ e, e ∈ trace w' → is_own_output e = false.
Proof.
  destruct (@console_skips_the_callback sample_env sample_handler sample_ctx
              sample_browser sample_world sample_schema eq_refl
              sample_browser_wants_console) as (w' & evs & Hrun & Htr & Hown & Hw).
  exists w'. split; [exact Hrun|]. split; [exact Hw|].
  intros e He. rewrite Htr in He. apply Hown, He.
Defined.

Lemma console_ignores_pretty_and_callback_witness :
  @ContextHandler sample_env sample_handler sample_ctx sample_browser sample_world
  = @ContextHandler sample_env sample_handler_quiet sample_ctx sample_browser
      sample_world.
Proof.
  exact (@console_ignores_pretty_and_callback sample_env sample_handler
           sample_handler_quiet sample_ctx sample_browser sample_world eq_refl eq_refl
           eq_refl eq_refl sample_browser_wants_console).
Defined.

Lemma later_New_retitles_every_console_witness :
  ∃ w' evs,
    @ContextHandler sample_env sample_handler_first sample_ctx sample_browser
      sample_world_second = Returns w' ∧
    trace w' = trace sample_world_second ++ evs ∧
    ∀ name args, EvExecuteTemplate name args ∈ evs → args = [("Title", "Explorer")].
Proof.
  exact (@later_New_retitles_every_console sample_env sample_config_first
           sample_config_second sample_handler_first sample_handler_second
           "GraphQL Playground" "Console" "Explorer" sample_ctx sample_browser
           sample_world_second eq_refl eq_refl eq_refl).
Defined.

Lemma sample_raw_plain_wants_json :
  ¬ @wants_console sample_env sample_plain_handler sample_raw.
Proof. intros (_ & H & _). vm_compute in H. discriminate H. Defined.

Lemma results_pass_unformatted_witness :
  @ContextHandler sample_env sample_plain_handler sample_ctx sample_raw sample_world
  = Returns
      {| trace :=
           [EvDo (@request_params sample_env sample_plain_handler sample_schema
                    sample_ctx sample_raw);
            EvHeaderAdd "Content-Type" "application/json; charset=utf-8";
            EvWriteHeader 200;
            EvWrite (response_body sample_plain_handler sample_failure);
            EvResultCallback
              (@request_params sample_env sample_plain_handler sample_schema
                 sample_ctx sample_raw)
              sample_failure (response_body sample_plain_handler sample_failure)];
         engine := (1%nat : @Engine sample_env);
         Title := "GraphQL Playground" |}.
Proof.
  exact (@results_pass_unformatted sample_env sample_plain_handler sample_ctx sample_raw
           sample_world sample_schema eq_refl sample_raw_plain_wants_json
           (or_introl eq_refl)).
Defined.

Lemma exit_hook_is_the_last_call_witness :
  ∃ calls,
    Hooks.trace (@Hooks.ContextHandler sample_env sample_hooks_render
                   sample_hooks_handler sample_ctx sample_browser sample_hooks_world).1
    = Hooks.trace sample_hooks_world ++ calls ++ [Hooks.CallExit].
Proof.
  exact (@exit_hook_is_the_last_call sample_env sample_hooks_render sample_hooks_handler
           sample_ctx sample_browser sample_hooks_world eq_refl).
Defined.

Lemma sample_raw_hooks_wants_json :
  ¬ @Hooks.wants_console sample_env sample_hooks_handler sample_raw.
Proof. intros (_ & H & _). vm_compute in H. discriminate H. Defined.

Lemma finish_hook_gets_the_written_bytes_witness :
  ∃ buff,
    @Hooks.ContextHandler sample_env sample_hooks_render sample_hooks_handler sample_ctx
      sample_raw sample_hooks_world
    = ({| Hooks.trace :=
            [Hooks.Call (EvDo (@Hooks.request_params sample_env sample_hooks_handler
                                 sample_schema sample_ctx sample_raw));
             Hooks.Call (EvHeaderAdd "Content-Type" "application/json; charset=utf-8");
             Hooks.Call (EvWriteHeader 200);
             Hooks.Call (EvWrite buff);
             Hooks.CallFinish buff;
             Hooks.CallExit];
          Hooks.engine := (1%nat : @Engine sample_env) |}, None).
Proof.
  eexists.
  exact (@finish_hook_gets_the_written_bytes sample_env sample_hooks_render
           sample_hooks_handler sample_ctx sample_raw sample_hooks_world sample_schema
           eq_refl sample_raw_hooks_wants_json).
Defined.

Lemma sample_browser_hooks_wants_console :
  @Hooks.wants_console sample_env sample_hooks_handler sample_browser.
Proof. repeat split; reflexivity. Defined.

Lemma console_path_skips_finish_witness :
  @Hooks.ContextHandler sample_env sample_hooks_render sample_hooks_handler sample_ctx
    sample_browser sample_hooks_world
  = ({| Hooks.trace :=
          [Hooks.Call (EvDo (@Hooks.request_params sample_env sample_hooks_handler
                               sample_schema sample_ctx sample_browser));
           Hooks.Call (EvExecuteTemplate "index" [("Title", "Console")]);
           Hooks.CallExit];
        Hooks.engine := (1%nat : @Engine sample_env) |}, None).
Proof.
  exact (@console_path_skips_finish sample_env sample_hooks_render sample_hooks_handler
           sample_ctx sample_browser sample_hooks_world sample_schema eq_refl
           sample_browser_hooks_wants_console).
Defined.

Lemma hooks_bytes_decode_to_the_result_witness :
  ∃ j calls,
    Result_json sample_failure = Some j ∧
    Hooks.trace (@Hooks.ContextHandler sample_env sample_hooks_render
                   sample_hooks_handler sample_ctx sample_raw sample_hooks_world).1
    = Hooks.trace sample_hooks_world ++ calls ∧
    ∀ buf, Hooks.CallFinish buf ∈ calls → parse buf = Some (coerce_json j).
Proof.
  destruct (Result_json sample_failure) as [j|] eqn:Hj;
    [|vm_compute in Hj; discriminate Hj].
  destruct (@hooks_bytes_decode_to_the_result sample_env sample_hooks_render
              sample_hooks_handler sample_ctx sample_raw sample_hooks_world
              sample_schema j eq_refl sample_raw_hooks_wants_json Hj)
    as (calls & Htr & _ & Hp).
  exists j, calls. split; [reflexivity|]. split; [exact Htr|].
  intros buf Hin. apply Hp. right. exact Hin.
Defined.
